(** * OLYMPUS 2.0 request authorization: a shallow embedding

    The Python package [python/auth] (files [core.py], [permissions.py] and
    [rate_limit.py]) is embedded function by function:

    - JSON-like Python values ([json]) for the duck-typed token payload and
      for the [detail] of an [HTTPException];
    - Python exceptions as an error monad ([result]);
    - the pydantic models [OlympusClaims] and [AuthUser] as records;
    - the in-memory rate limiter as explicit state passing over a [World]
      that holds the [defaultdict] of timestamps and the wall clock.

    Wall-clock values ([time.time()]) are Python floats: each is the
    rational it stands for, and the rounding of every float operation of
    the limiter is the parameter [fl] of the embedding. *)

From Stdlib Require Import ZArith QArith Lqa String Ascii List.
From stdpp Require Import gmap strings list pretty.

Set Warnings "-register-all".

Local Open Scope Z_scope.
Local Open Scope string_scope.

(** ** Python values *)

(** The values a decoded JSON document is made of.  A Python [dict] with
    string keys is a finite map; [None] is [JNull]. *)
Inductive json :=
  | JNull
  | JBool (b : bool)
  | JNum (q : Q)
  | JStr (s : string)
  | JList (xs : list json)
  | JDict (d : gmap string json).

(** [d.get(k, dflt)] *)
Definition dict_get (d : gmap string json) (k : string) (dflt : json) : json :=
  default dflt (d !! k).

(** Truthiness of an [Optional[str]]: [None] and [""] are falsy. *)
Definition truthy_str (s : string) : bool := negb (String.eqb s "").

Definition truthy (o : option string) : bool :=
  match o with
  | None => false
  | Some s => truthy_str s
  end.

(** [x in l] for a list of strings. *)
Definition py_in (x : string) (l : list string) : bool :=
  existsb (String.eqb x) l.

(** ** Exceptions *)

Definition HTTP_401_UNAUTHORIZED : Z := 401.
Definition HTTP_403_FORBIDDEN : Z := 403.
Definition HTTP_429_TOO_MANY_REQUESTS : Z := 429.
Definition HTTP_500_INTERNAL_SERVER_ERROR : Z := 500.

(** The exceptions that can leave the functions of the package:
    FastAPI's [HTTPException(status_code, detail, headers)] ([headers] is
    the empty list when the argument is not given), the [AttributeError]
    of a method call on a value that has no such method, pydantic's
    [ValidationError] for a model whose fields do not validate, and an
    exception of the JWT library that no handler of the package catches,
    with the name of its class and its message. *)
Inductive exn :=
  | HTTPException (status_code : Z) (detail : json)
                  (headers : list (string * string))
  | AttributeError (msg : string)
  | ValidationError (model : string)
  | LibraryError (cls msg : string).

Inductive result (A : Type) :=
  | Return (a : A)
  | Raise (e : exn).
Arguments Return {A} a.
Arguments Raise {A} e.

Definition bind {A B} (r : result A) (k : A -> result B) : result B :=
  match r with
  | Return a => k a
  | Raise e => Raise e
  end.

Notation "x <- r ;;; k" := (bind r (fun x => k))
  (at level 100, r at next level, right associativity).

Definition is_HTTPException (e : exn) : bool :=
  match e with
  | HTTPException _ _ _ => true
  | _ => false
  end.

Definition succeeds {A} (r : result A) : bool :=
  match r with
  | Return _ => true
  | Raise _ => false
  end.

(** The error a call ends with, if any. *)
Definition raised {A} (r : result A) : option exn :=
  match r with
  | Return _ => None
  | Raise e => Some e
  end.

(** The names the specification gives to the error codes of the source. *)
Inductive ErrorKind :=
  | CONFIG
  | TOKEN_EXPIRED
  | TOKEN_INVALID
  | EMAIL_UNVERIFIED
  | PERMISSION_DENIED
  | TENANT_REQUIRED
  | RATE_LIMITED.

Definition detail_code (d : json) : option string :=
  match d with
  | JDict m =>
      match m !! "code" with
      | Some (JStr c) => Some c
      | _ => None
      end
  | _ => None
  end.

Definition kind_of_code (c : string) : option ErrorKind :=
  if String.eqb c "AUTH_105" then Some TOKEN_EXPIRED
  else if String.eqb c "AUTH_106" then Some TOKEN_INVALID
  else if String.eqb c "AUTH_102" then Some EMAIL_UNVERIFIED
  else if String.eqb c "AUTH_301" then Some PERMISSION_DENIED
  else if String.eqb c "AUTH_302" then Some TENANT_REQUIRED
  else if String.eqb c "AUTH_400" then Some RATE_LIMITED
  else None.

Definition error_kind (e : exn) : option ErrorKind :=
  match e with
  | HTTPException st d _ =>
      if Z.eqb st HTTP_500_INTERNAL_SERVER_ERROR then Some CONFIG
      else match detail_code d with
           | Some c => kind_of_code c
           | None => None
           end
  | _ => None
  end.

(** ** core.py: the pydantic models *)

Record OlympusClaims := {
  tenant_id : option string;
  tenant_role : option string;
  tenant_slug : option string;
  permissions : list string;
  plan_tier : option string;
  is_platform_admin : bool
}.

(** [OlympusClaims()] *)
Definition OlympusClaims_default : OlympusClaims :=
  {| tenant_id := None; tenant_role := None; tenant_slug := None;
     permissions := []; plan_tier := None; is_platform_admin := false |}.

(** The field [id] of the source is [id_] here. *)
Record AuthUser := {
  id_ : string;
  email : string;
  email_verified : bool;
  claims : OlympusClaims
}.

(** The same user with another permission list. *)
Definition with_permissions (ps : list string) (u : AuthUser) : AuthUser :=
  {| id_ := id_ u; email := email u; email_verified := email_verified u;
     claims :=
       {| tenant_id := tenant_id (claims u);
          tenant_role := tenant_role (claims u);
          tenant_slug := tenant_slug (claims u);
          permissions := ps;
          plan_tier := plan_tier (claims u);
          is_platform_admin := is_platform_admin (claims u) |} |}.

(** pydantic's validation of a field of a JSON value.  A [str] field
    keeps a string and rejects every other value; [None] is accepted
    where the type is [Optional]; a [List[str]] field keeps a list of
    strings.  A [bool] field is validated in pydantic's lax mode: besides
    [true] and [false] it takes the numbers 0 and 1 and, whatever their
    case, the strings "0", "off", "f", "false", "n", "no" for [False] and
    "1", "on", "t", "true", "y", "yes" for [True]. *)
Definition validate_str (v : json) : option string :=
  match v with
  | JStr s => Some s
  | _ => None
  end.

Definition validate_optional_str (v : json) : option (option string) :=
  match v with
  | JNull => Some None
  | JStr s => Some (Some s)
  | _ => None
  end.

(** [c.lower()] on an ASCII character, and [s.lower()]. *)
Definition lower_char (c : ascii) : ascii :=
  let n := nat_of_ascii c in
  if (Nat.leb 65 n && Nat.leb n 90)%bool then ascii_of_nat (n + 32) else c.

Fixpoint lower (s : string) : string :=
  match s with
  | EmptyString => EmptyString
  | String c s' => String (lower_char c) (lower s')
  end.

Definition BOOL_FALSE : list string := ["0"; "off"; "f"; "false"; "n"; "no"].
Definition BOOL_TRUE : list string := ["1"; "on"; "t"; "true"; "y"; "yes"].

Definition validate_bool (v : json) : option bool :=
  match v with
  | JBool b => Some b
  | JNum q =>
      if Qeq_bool q 0 then Some false
      else if Qeq_bool q 1 then Some true
      else None
  | JStr s =>
      if py_in (lower s) BOOL_FALSE then Some false
      else if py_in (lower s) BOOL_TRUE then Some true
      else None
  | _ => None
  end.

Fixpoint validate_all_str (xs : list json) : option (list string) :=
  match xs with
  | [] => Some []
  | x :: xs' =>
      match validate_str x, validate_all_str xs' with
      | Some s, Some ss => Some (s :: ss)
      | _, _ => None
      end
  end.

Definition validate_list_str (v : json) : option (list string) :=
  match v with
  | JList xs => validate_all_str xs
  | _ => None
  end.

(** [OlympusClaims(tenant_id=.., tenant_role=.., ...)] *)
Definition make_OlympusClaims (tid trole tslug perms tier admin : json)
  : result OlympusClaims :=
  match validate_optional_str tid, validate_optional_str trole,
        validate_optional_str tslug, validate_list_str perms,
        validate_optional_str tier, validate_bool admin with
  | Some a, Some b, Some c, Some d, Some e, Some f =>
      Return {| tenant_id := a; tenant_role := b; tenant_slug := c;
                permissions := d; plan_tier := e; is_platform_admin := f |}
  | _, _, _, _, _, _ => Raise (ValidationError "OlympusClaims")
  end.

(** [AuthUser(id=.., email=.., email_verified=.., claims=..)] *)
Definition make_AuthUser (i e ev : json) (c : OlympusClaims)
  : result AuthUser :=
  match validate_str i, validate_str e, validate_bool ev with
  | Some a, Some b, Some v =>
      Return {| id_ := a; email := b; email_verified := v; claims := c |}
  | _, _, _ => Raise (ValidationError "AuthUser")
  end.

(** ** core.py: token verification and claims extraction *)

(** What the call [jwt.decode(token, key, algorithms=.., audience=..)] of
    the PyJWT library ends with: the decoded payload or an exception.
    [InvalidTokenError msg] stands for every instance [e] of
    [jwt.InvalidTokenError] that is not an [ExpiredSignatureError], with
    [str(e) = msg] (bad signature, malformed token, wrong audience,
    algorithm not allowed, ...).  [OtherError cls msg] is any exception
    that is not an [InvalidTokenError], of class [cls]: the library's
    [InvalidKeyError] for a key it refuses (a secret that looks like a
    PEM or SSH key) is a [PyJWTError] outside [InvalidTokenError]. *)
Inductive jwt_exception :=
  | ExpiredSignatureError
  | InvalidTokenError (msg : string)
  | OtherError (cls msg : string).

Inductive jwt_outcome :=
  | Decoded (payload : gmap string json)
  | Raises (e : jwt_exception).

Record HTTPAuthorizationCredentials := {
  scheme : string;
  credentials : string
}.

(** The lines after [decode_jwt] in [get_current_user]: the extraction of
    the user from the verified payload. *)
Definition user_of_payload (payload : gmap string json) : result AuthUser :=
  match dict_get payload "olympus" (JDict ∅) with
  | JDict olympus =>
      c <- make_OlympusClaims
             (dict_get olympus "tenant_id" JNull)
             (dict_get olympus "tenant_role" JNull)
             (dict_get olympus "tenant_slug" JNull)
             (dict_get olympus "permissions" (JList []))
             (dict_get olympus "plan_tier" JNull)
             (dict_get olympus "is_platform_admin" (JBool false)) ;;;
      make_AuthUser
        (dict_get payload "sub" (JStr ""))
        (dict_get payload "email" (JStr ""))
        (dict_get payload "email_verified" (JBool false))
        c
  | _ => Raise (AttributeError "object has no attribute 'get'")
  end.

Section Core.

(** The module constant read from the environment when the module is
    loaded, [""] when the variable is not set. *)
Variable SUPABASE_JWT_SECRET : string.

(** PyJWT's [jwt.decode token key algorithms audience], at the moment of
    the call. *)
Variable jwt_decode :
  string -> string -> list string -> string -> jwt_outcome.

Definition decode_jwt (token : string) : result (gmap string json) :=
  if negb (truthy_str SUPABASE_JWT_SECRET) then
    Raise (HTTPException HTTP_500_INTERNAL_SERVER_ERROR
             (JStr "JWT secret not configured") [])
  else
    match jwt_decode token SUPABASE_JWT_SECRET ["HS256"] "authenticated" with
    | Decoded payload => Return payload
    | Raises ExpiredSignatureError =>
        Raise (HTTPException HTTP_401_UNAUTHORIZED
                 (JDict {[ "code" := JStr "AUTH_105";
                           "message" := JStr "Token expired" ]}) [])
    | Raises (InvalidTokenError msg) =>
        Raise (HTTPException HTTP_401_UNAUTHORIZED
                 (JDict {[ "code" := JStr "AUTH_106";
                           "message" := JStr ("Invalid token: " ++ msg) ]})
                 [])
    | Raises (OtherError cls msg) => Raise (LibraryError cls msg)
    end.

Definition get_current_user (cred : HTTPAuthorizationCredentials)
  : result AuthUser :=
  payload <- decode_jwt (credentials cred) ;;;
  user_of_payload payload.

(** [except HTTPException: return None]; any other exception leaves the
    function. *)
Definition get_optional_user (cred : option HTTPAuthorizationCredentials)
  : result (option AuthUser) :=
  match cred with
  | None => Return None
  | Some c =>
      match get_current_user c with
      | Return u => Return (Some u)
      | Raise e => if is_HTTPException e then Return None else Raise e
      end
  end.

End Core.

(** ** permissions.py *)

Definition ROLE_HIERARCHY : gmap string Z :=
  {[ "owner" := 100; "admin" := 75; "developer" := 50; "viewer" := 25 ]}.

(** [ROLE_HIERARCHY.get(role, 0)] *)
Definition role_level (role : string) : Z :=
  default 0 (ROLE_HIERARCHY !! role).

Definition require_permission (permission : string) (user : AuthUser)
  : result AuthUser :=
  if py_in "*" (permissions (claims user)) then Return user
  else if negb (py_in permission (permissions (claims user))) then
    Raise (HTTPException HTTP_403_FORBIDDEN
             (JDict {[ "code" := JStr "AUTH_301";
                       "message" := JStr "Permission denied";
                       "required" := JStr permission ]}) [])
  else Return user.

Definition require_any_permission (perms : list string) (user : AuthUser)
  : result AuthUser :=
  if py_in "*" (permissions (claims user)) then Return user
  else
    let has_any :=
      existsb (fun p => py_in p (permissions (claims user))) perms in
    if negb has_any then
      Raise (HTTPException HTTP_403_FORBIDDEN
               (JDict {[ "code" := JStr "AUTH_301";
                         "message" := JStr "Permission denied";
                         "required_any" := JList (map JStr perms) ]}) [])
    else Return user.

Definition require_role (min_role : string) (user : AuthUser)
  : result AuthUser :=
  match tenant_role (claims user) with
  | Some user_role =>
      if negb (truthy_str user_role) then
        Raise (HTTPException HTTP_403_FORBIDDEN
                 (JDict {[ "code" := JStr "AUTH_301";
                           "message" := JStr "No tenant role";
                           "required_role" := JStr min_role ]}) [])
      else
        let user_level := role_level user_role in
        let required_level := role_level min_role in
        if Z.ltb user_level required_level then
          Raise (HTTPException HTTP_403_FORBIDDEN
                   (JDict {[ "code" := JStr "AUTH_301";
                             "message" := JStr "Insufficient role";
                             "required_role" := JStr min_role;
                             "current_role" := JStr user_role ]}) [])
        else Return user
  | None =>
      Raise (HTTPException HTTP_403_FORBIDDEN
               (JDict {[ "code" := JStr "AUTH_301";
                         "message" := JStr "No tenant role";
                         "required_role" := JStr min_role ]}) [])
  end.

Definition require_tenant (user : AuthUser) : result AuthUser :=
  if negb (truthy (tenant_id (claims user))) then
    Raise (HTTPException HTTP_403_FORBIDDEN
             (JDict {[ "code" := JStr "AUTH_302";
                       "message" := JStr "Tenant context required" ]}) [])
  else Return user.

Definition require_verified_email (user : AuthUser) : result AuthUser :=
  if negb (email_verified user) then
    Raise (HTTPException HTTP_403_FORBIDDEN
             (JDict {[ "code" := JStr "AUTH_102";
                       "message" := JStr "Email verification required" ]}) [])
  else Return user.

Definition require_platform_admin (user : AuthUser) : result AuthUser :=
  if negb (is_platform_admin (claims user)) then
    Raise (HTTPException HTTP_403_FORBIDDEN
             (JDict {[ "code" := JStr "AUTH_301";
                       "message" := JStr "Platform admin required" ]}) [])
  else Return user.

(** ** rate_limit.py *)

(** *** Strings: [str.split] and [str.strip] *)

(** The characters [str.strip()] removes: the code points below 256 for
    which [str.isspace] holds (a header value is decoded as latin-1, one
    character per byte). *)
Definition is_space (c : ascii) : bool :=
  let n := nat_of_ascii c in
  ((9 <=? n)%nat && (n <=? 13)%nat) || ((28 <=? n)%nat && (n <=? 32)%nat)
  || (n =? 133)%nat || (n =? 160)%nat.

Fixpoint lstrip (s : string) : string :=
  match s with
  | EmptyString => EmptyString
  | String c s' => if is_space c then lstrip s' else s
  end.

Fixpoint rstrip (s : string) : string :=
  match s with
  | EmptyString => EmptyString
  | String c s' =>
      match rstrip s' with
      | EmptyString => if is_space c then EmptyString else String c EmptyString
      | r => String c r
      end
  end.

Definition strip (s : string) : string := rstrip (lstrip s).

(** [s.split(sep)] for a separator of one character: never empty. *)
Fixpoint split (sep : ascii) (s : string) : list string :=
  match s with
  | EmptyString => [EmptyString]
  | String c s' =>
      if Ascii.eqb c sep then EmptyString :: split sep s'
      else match split sep s' with
           | [] => [String c EmptyString]
           | w :: ws => String c w :: ws
           end
  end.

(** *** Requests *)

Record Address := {
  host : string;
  port : Z
}.

(** What [_get_key] reads of a Starlette [Request]: the header list (names
    in lower case, as the server delivers them) and the peer address. *)
Record Request := {
  headers : list (string * string);
  client : option Address
}.

(** [request.headers.get(name)]: the value of the first header of that
    name. *)
Fixpoint headers_get (hs : list (string * string)) (name : string)
  : option string :=
  match hs with
  | [] => None
  | (k, v) :: hs' => if String.eqb k name then Some v else headers_get hs' name
  end.

Definition _get_key (request : Request) (prefix : string) : string :=
  let user_id := headers_get (headers request) "x-user-id" in
  if truthy user_id then
    prefix ++ ":user:" ++ default "" user_id
  else
    let forwarded := headers_get (headers request) "x-forwarded-for" in
    let ip :=
      if truthy forwarded then
        strip (hd "" (split "," (default "" forwarded)))
      else
        match client request with
        | Some a => host a
        | None => "unknown"
        end in
    prefix ++ ":ip:" ++ ip.

(** *** The limiter *)

(** The limiter's dictionary, together with the wall clock: [clock n] is
    the value of the [n]-th call of [time.time()], [reads] the number of
    calls made so far. *)
Record World := {
  clock : nat -> Q;
  reads : nat;
  requests : gmap string (list Q)
}.

(** [time.time()] *)
Definition time_time (w : World) : Q * World :=
  (clock w (reads w),
   {| clock := clock w; reads := S (reads w); requests := requests w |}).

Definition set_requests (m : gmap string (list Q)) (w : World) : World :=
  {| clock := clock w; reads := reads w; requests := m |}.

(** [self.requests[key]] of the [defaultdict(list)] *)
Definition requests_of (w : World) (key : string) : list Q :=
  default [] (requests w !! key).

(** *** Float arithmetic

    [time.time()] returns a Python float and the limiter computes with
    floats: each of [/], [+] and [-] gives the exact result rounded to the
    nearest float.  [fl] is that rounding, kept as a parameter; float
    values are the rationals they stand for.  The properties of [fl] that
    a statement needs are hypotheses of that statement. *)
Class Rounding := { fl : Q -> Q }.

(** [fl] does not reverse the order. *)
Definition fl_monotone {R : Rounding} : Prop :=
  forall x y : Q, (x <= y)%Q -> (fl x <= fl y)%Q.

(** The integers up to 2^53 are floats. *)
Definition fl_exact_int {R : Rounding} : Prop :=
  forall n : Z, - 2 ^ 53 <= n <= 2 ^ 53 -> (fl (inject_Z n) == inject_Z n)%Q.

(** From 1 to 2^64 the rounding adds at most the fraction 2^-53. *)
Definition fl_accurate {R : Rounding} : Prop :=
  forall x : Q, (1 <= x)%Q -> (x <= inject_Z (2 ^ 64))%Q ->
                (fl x <= x * (1 + 1 / inject_Z (2 ^ 53)))%Q.

(** Arithmetic without rounding: what float arithmetic is on values whose
    sums, differences and quotients are floats again. *)
Definition exact_rounding : Rounding := {| fl := fun x => x |}.

Section Rounded.

Context {R : Rounding}.

(** [a / b], [a + b] and [a - b] on floats. *)
Definition float_div (a b : Q) : Q := fl (a / b)%Q.
Definition float_add (a b : Q) : Q := fl (a + b)%Q.
Definition float_sub (a b : Q) : Q := fl (a - b)%Q.

(** [window_ms / 1000] *)
Definition window_seconds (window_ms : Z) : Q :=
  float_div (inject_Z window_ms) 1000.

(** [t > cutoff] *)
Definition Qgtb (t cutoff : Q) : bool := negb (Qle_bool t cutoff).

Definition _cleanup (key : string) (window_ms : Z) (w : World) : World :=
  let '(t, w1) := time_time w in
  let cutoff := float_sub t (window_seconds window_ms) in
  set_requests
    (<[key := List.filter (fun t => Qgtb t cutoff) (requests_of w1 key)]>
       (requests w1))
    w1.

Definition check (request : Request) (window_ms max_requests : Z)
    (prefix : string) (w : World) : (bool * Z * Q) * World :=
  let key := _get_key request prefix in
  let '(now, w1) := time_time w in
  let w2 := _cleanup key window_ms w1 in
  let count := Z.of_nat (length (requests_of w2 key)) in
  let remaining := Z.max 0 (max_requests - count - 1) in
  let reset_at := float_add now (window_seconds window_ms) in
  if Z.leb max_requests count then ((false, 0, reset_at), w2)
  else
    ((true, remaining, reset_at),
     set_requests
       (<[key := (requests_of w2 key ++ [now])%list]> (requests w2)) w2).

(** [int(x)] of a float: truncation towards zero. *)
Definition int_of (x : Q) : Z := Z.quot (Qnum x) (Zpos (Qden x)).

(** [str(n)] of an integer. *)
Definition str_of_int (n : Z) : string := pretty n.

(** The dependency made by [create_rate_limit_dependency]; what it stores
    in [request.state.rate_limit] is its result. *)
Definition check_rate_limit (window_ms max_requests : Z) (prefix : string)
    (request : Request) (w : World) : result (gmap string Z) * World :=
  let '((allowed, remaining, reset_at), w1) :=
    check request window_ms max_requests prefix w in
  if negb allowed then
    let '(t, w2) := time_time w1 in
    let retry_after := int_of (float_sub reset_at t) in
    (Raise (HTTPException HTTP_429_TOO_MANY_REQUESTS
              (JDict {[ "code" := JStr "AUTH_400";
                        "message" := JStr "Rate limit exceeded";
                        "retry_after" := JNum (inject_Z retry_after) ]})
              [ ("Retry-After", str_of_int retry_after);
                ("X-RateLimit-Limit", str_of_int max_requests);
                ("X-RateLimit-Remaining", "0");
                ("X-RateLimit-Reset", str_of_int (int_of reset_at)) ]),
     w2)
  else
    (Return {[ "limit" := max_requests;
               "remaining" := remaining;
               "reset" := int_of reset_at ]},
     w1).

Definition rate_limit_default := check_rate_limit 60000 100 "api".
Definition rate_limit_auth := check_rate_limit 900000 5 "auth".
Definition rate_limit_strict := check_rate_limit 60000 10 "strict".

(** ** Vocabulary of the statements, and sample data *)

(** The rank of the specification: the level of the role, [0] for an
    absent role. *)
Definition rank (role : option string) : Z :=
  match role with
  | Some r => role_level r
  | None => 0
  end.

(** A user with the given tenant scope and nothing else. *)
Definition tenant_user (tid trole : option string) : AuthUser :=
  {| id_ := "u1"; email := "u1@example.com"; email_verified := false;
     claims :=
       {| tenant_id := tid; tenant_role := trole; tenant_slug := None;
          permissions := []; plan_tier := None;
          is_platform_admin := false |} |}.


(** A library that finds every token expired. *)
Definition jwt_always_expired
    (token key : string) (algorithms : list string) (audience : string)
  : jwt_outcome := Raises ExpiredSignatureError.

(** A claim that is absent or a string. *)
Definition str_or_absent (o : option json) : Prop :=
  o = None \/ exists s, o = Some (JStr s).

(** A claim that is absent or a boolean. *)
Definition bool_or_absent (o : option json) : Prop :=
  o = None \/ exists b, o = Some (JBool b).

(** The same user with another identifier. *)
Definition with_id (i : string) (u : AuthUser) : AuthUser :=
  {| id_ := i; email := email u; email_verified := email_verified u;
     claims := claims u |}.

(** A library that accepts every token and decodes it to [payload]. *)
Definition jwt_decodes_to (payload : gmap string json)
    (token key : string) (algorithms : list string) (audience : string)
  : jwt_outcome := Decoded payload.

(** The credentials of an [Authorization: Bearer token] header. *)
Definition bearer (token : string) : HTTPAuthorizationCredentials :=
  {| scheme := "Bearer"; credentials := token |}.

(** A verified payload without the "olympus" namespace, of a user whose
    e-mail address is verified. *)
Definition payload_verified_email : gmap string json :=
  {[ "sub" := JStr "u1"; "email" := JStr "u1@example.com";
     "email_verified" := JBool true ]}.

(** A payload whose namespace carries the given permission list. *)
Definition payload_with_permissions (ps : list string) : gmap string json :=
  {[ "sub" := JStr "u1";
     "olympus" := JDict {[ "permissions" := JList (map JStr ps) ]} ]}.

(** A payload whose namespace claim is [null]. *)
Definition payload_null_namespace : gmap string json :=
  {[ "sub" := JStr "u1"; "olympus" := JNull ]}.

(** The user [get_current_user] makes of [payload_with_permissions ps]. *)
Definition user_with_permissions (ps : list string) : AuthUser :=
  {| id_ := "u1"; email := ""; email_verified := false;
     claims :=
       {| tenant_id := None; tenant_role := None; tenant_slug := None;
          permissions := ps; plan_tier := None;
          is_platform_admin := false |} |}.

(** The key as the specification derives it: the user identifier when the
    header is there, else the left-most forwarded address, else the
    address "unknown". *)
Definition claimed_key (request : Request) (prefix : string) : string :=
  match headers_get (headers request) "x-user-id" with
  | Some uid => prefix ++ ":user:" ++ uid
  | None =>
      match headers_get (headers request) "x-forwarded-for" with
      | Some forwarded =>
          prefix ++ ":ip:" ++ strip (hd "" (split "," forwarded))
      | None => prefix ++ ":ip:unknown"
      end
  end.

(** What [_get_key] puts after the prefix. *)
Definition key_suffix (request : Request) : string :=
  _get_key request "".

(** A request that comes straight from the peer 10.0.0.1, without any of
    the two headers. *)
Definition direct_request : Request :=
  {| headers := [("accept", "*/*")];
     client := Some {| host := "10.0.0.1"; port := 51234 |} |}.

(** [n] successive checks of one request. *)
Fixpoint checks (n : nat) (request : Request) (window_ms max_requests : Z)
    (prefix : string) (w : World) : list (bool * Z * Q) * World :=
  match n with
  | O => ([], w)
  | S n' =>
      let '(r, w1) := check request window_ms max_requests prefix w in
      let '(rs, w2) := checks n' request window_ms max_requests prefix w1 in
      (r :: rs, w2)
  end.

(** The verdict and the remaining count of a check. *)
Definition verdict (r : bool * Z * Q) : bool * Z := fst r.

(** The clock never runs backwards. *)
Definition monotone_clock (w : World) : Prop :=
  forall i j : nat, (i <= j)%nat -> (clock w i <= clock w j)%Q.

(** A world with an empty limiter whose clock advances by one second at
    every reading. *)
Definition ticking_world : World :=
  {| clock := fun n => inject_Z (Z.of_nat n); reads := 0; requests := ∅ |}.

(** [n] admissions in a row, the remaining count going down from [from]. *)
Fixpoint countdown (n : nat) (from : Z) : list (bool * Z) :=
  match n with
  | O => []
  | S n' => (true, from) :: countdown n' (from - 1)
  end.

(** The timestamps of [key] that a check at [w] keeps. *)
Definition kept_of (key : string) (window_ms : Z) (w : World) : list Q :=
  List.filter
    (fun t => Qgtb t (float_sub (clock w (S (reads w))) (window_seconds window_ms)))
    (requests_of w key).

(** A world whose limiter recorded one request of [direct_request] at
    time 0, read at time 100. *)
Definition stale_world : World :=
  {| clock := fun n => inject_Z (100 + Z.of_nat n); reads := 0;
     requests := {[ "api:ip:10.0.0.1" := [0%Q] ]} |}.

(** A world like [ticking_world] with a record for another key. *)
Definition busy_world : World :=
  {| clock := fun n => inject_Z (Z.of_nat n); reads := 0;
     requests := {[ "api:user:42" := [0%Q] ]} |}.

(** The first and the last character of a string. *)
Definition head_char (s : string) : option ascii :=
  match s with
  | EmptyString => None
  | String c _ => Some c
  end.

Fixpoint last_char (s : string) : option ascii :=
  match s with
  | EmptyString => None
  | String c s' =>
      match s' with
      | EmptyString => Some c
      | String _ _ => last_char s'
      end
  end.

(** A request that carries the user id 42 and a forwarded address. *)
Definition user_request : Request :=
  {| headers := [("x-user-id", "42"); ("x-forwarded-for", "user:42")];
     client := None |}.

(** A request without user id whose forwarded address imitates one. *)
Definition spoofing_request : Request :=
  {| headers := [("x-forwarded-for", " user:42 , 10.0.0.7")];
     client := Some {| host := "10.0.0.7"; port := 40000 |} |}.

(** A guard either returns the user it was given or raises a 403 error of
    the kind [k]. *)
Definition guard_outcome (r : result AuthUser) (u : AuthUser)
    (k : ErrorKind) : Prop :=
  r = Return u \/
  exists d, r = Raise (HTTPException 403 d []) /\
            error_kind (HTTPException 403 d []) = Some k.

(** [None] for an absent optional string. *)
Definition opt_json (o : option string) : json :=
  match o with
  | Some s => JStr s
  | None => JNull
  end.

(** The payload that states every field of a user. *)
Definition payload_of_user (u : AuthUser) : gmap string json :=
  {[ "sub" := JStr (id_ u);
     "email" := JStr (email u);
     "email_verified" := JBool (email_verified u);
     "olympus" :=
       JDict {[ "tenant_id" := opt_json (tenant_id (claims u));
                "tenant_role" := opt_json (tenant_role (claims u));
                "tenant_slug" := opt_json (tenant_slug (claims u));
                "permissions" := JList (map JStr (permissions (claims u)));
                "plan_tier" := opt_json (plan_tier (claims u));
                "is_platform_admin" :=
                  JBool (is_platform_admin (claims u)) ]} ]}.

(** The timestamps of [l] that are younger than the cut-off [c]. *)
Definition younger (c : Q) (l : list Q) : list Q :=
  List.filter (fun t => Qgtb t c) l.

(** The timestamps under which the admitted ones of [n] successive checks
    were recorded, in order. *)
Fixpoint admitted (n : nat) (request : Request) (window_ms max_requests : Z)
    (prefix : string) (w : World) : list Q :=
  match n with
  | O => []
  | S n' =>
      let r := check request window_ms max_requests prefix w in
      ((if fst (fst (fst r)) then [clock w (reads w)] else [])
       ++ admitted n' request window_ms max_requests prefix (snd r))%list
  end.

(** The check as the specification words it: the timestamps older than
    [now - window] are pruned, the others stay and are counted. *)
Definition claimed_check (record : list Q) (now window : Q)
    (max_requests : Z) : bool * Z * Q :=
  let left := List.filter (fun t => Qle_bool (now - window)%Q t) record in
  let count := Z.of_nat (length left) in
  if Z.leb max_requests count then (false, 0, (now + window)%Q)
  else (true, Z.max 0 (max_requests - count - 1), (now + window)%Q).

(** A limiter that recorded one request of [direct_request] at time 0,
    read at time 60 twice. *)
Definition boundary_world : World :=
  {| clock := fun _ => 60%Q; reads := 0;
     requests := {[ "api:ip:10.0.0.1" := [0%Q] ]} |}.


(** * Properties *)

(** ** Small facts about the Python primitives *)

Lemma py_in_In (x : string) (l : list string) :
  py_in x l = true <-> In x l.
Proof.
  unfold py_in. rewrite existsb_exists. split.
  - intros (y & Hy & Heq). apply String.eqb_eq in Heq. now subst.
  - intros H. exists x. split; [assumption | apply String.eqb_refl].
Qed.

Lemma truthy_false (o : option string) :
  truthy o = false <-> o = None \/ o = Some "".
Proof.
  destruct o as [s|]; simpl.
  - unfold truthy_str. rewrite negb_false_iff, String.eqb_eq. split.
    + intros ->. now right.
    + intros [H|H]; congruence.
  - split; [now left | reflexivity].
Qed.

Lemma truthy_true (o : option string) :
  truthy o = true <-> exists s, o = Some s /\ s <> "".
Proof.
  destruct o as [s|]; simpl.
  - unfold truthy_str. rewrite negb_true_iff, String.eqb_neq. split.
    + intros H. now exists s.
    + intros (s' & [= ->] & H). exact H.
  - split; [discriminate | intros (s & H & _); discriminate].
Qed.

Lemma role_level_unknown (r : string) :
  r <> "owner" -> r <> "admin" -> r <> "developer" -> r <> "viewer" ->
  role_level r = 0.
Proof.
  intros H1 H2 H3 H4. unfold role_level, ROLE_HIERARCHY.
  rewrite !lookup_insert_ne by congruence.
  now rewrite lookup_singleton_ne by congruence.
Qed.

(** ** PermissionGuard *)

(** The role, tenant, e-mail and platform-admin checks do not read the
    permission list. *)
Lemma guards_ignore_permissions (ps : list string) (u : AuthUser) :
  (forall m, raised (require_role m (with_permissions ps u))
             = raised (require_role m u)) /\
  raised (require_tenant (with_permissions ps u)) = raised (require_tenant u) /\
  raised (require_verified_email (with_permissions ps u))
  = raised (require_verified_email u) /\
  raised (require_platform_admin (with_permissions ps u))
  = raised (require_platform_admin u).
Proof.
  repeat split.
  - intros m. unfold require_role. simpl.
    destruct (tenant_role (claims u)) as [r|]; [|reflexivity].
    destruct (truthy_str r); simpl; [|reflexivity].
    now destruct (Z.ltb _ _).
  - unfold require_tenant. simpl. now destruct (truthy _).
  - unfold require_verified_email. simpl. now destruct (email_verified u).
  - unfold require_platform_admin. simpl.
    now destruct (is_platform_admin (claims u)).
Qed.

Lemma require_role_succeeds (m : string) (u : AuthUser) :
  require_role m u = Return u <->
  truthy (tenant_role (claims u)) = true /\
  role_level m <= rank (tenant_role (claims u)).
Proof.
  unfold require_role.
  destruct (tenant_role (claims u)) as [r|]; simpl.
  - destruct (truthy_str r); simpl.
    + destruct (Z.ltb_spec (role_level r) (role_level m)).
      * split; [discriminate | intros [_ H']; lia].
      * split; [intros _; split; [reflexivity | lia] | reflexivity].
    + split; [discriminate | intros [H' _]; discriminate].
  - split; [discriminate | intros [H' _]; discriminate].
Qed.

Lemma require_tenant_succeeds (u : AuthUser) :
  require_tenant u = Return u <-> truthy (tenant_id (claims u)) = true.
Proof.
  unfold require_tenant. destruct (truthy _); simpl.
  - split; reflexivity.
  - split; discriminate.
Qed.

Lemma require_verified_email_succeeds (u : AuthUser) :
  require_verified_email u = Return u <-> email_verified u = true.
Proof.
  unfold require_verified_email. destruct (email_verified u); simpl.
  - split; reflexivity.
  - split; discriminate.
Qed.

Lemma require_platform_admin_succeeds (u : AuthUser) :
  require_platform_admin u = Return u <->
  is_platform_admin (claims u) = true.
Proof.
  unfold require_platform_admin.
  destruct (is_platform_admin (claims u)); simpl.
  - split; reflexivity.
  - split; discriminate.
Qed.

(** C1: a user whose permission list contains ["*"] passes
    [require_permission] for every permission and [require_any_permission]
    for every list, the empty one included; the outcome of [require_role],
    [require_tenant], [require_verified_email] and [require_platform_admin]
    is the same for every permission list the user could carry, and each
    of them succeeds exactly when its own condition holds. *)
Theorem wildcard_grants_permissions_only (u : AuthUser) :
  In "*" (permissions (claims u)) ->
  (forall p, require_permission p u = Return u) /\
  (forall ps, require_any_permission ps u = Return u) /\
  (forall ps m, raised (require_role m (with_permissions ps u))
                = raised (require_role m u)) /\
  (forall ps, raised (require_tenant (with_permissions ps u))
              = raised (require_tenant u)) /\
  (forall ps, raised (require_verified_email (with_permissions ps u))
              = raised (require_verified_email u)) /\
  (forall ps, raised (require_platform_admin (with_permissions ps u))
              = raised (require_platform_admin u)) /\
  (forall m, require_role m u = Return u <->
             truthy (tenant_role (claims u)) = true /\
             role_level m <= rank (tenant_role (claims u))) /\
  (require_tenant u = Return u <-> truthy (tenant_id (claims u)) = true) /\
  (require_verified_email u = Return u <-> email_verified u = true) /\
  (require_platform_admin u = Return u <->
   is_platform_admin (claims u) = true).
Proof.
  intros Hstar. apply py_in_In in Hstar.
  split; [|split].
  - intros p. unfold require_permission. now rewrite Hstar.
  - intros ps. unfold require_any_permission. now rewrite Hstar.
  - split; [intros ps m; apply (guards_ignore_permissions ps u)|].
    split; [intros ps; apply (guards_ignore_permissions ps u)|].
    split; [intros ps; apply (guards_ignore_permissions ps u)|].
    split; [intros ps; apply (guards_ignore_permissions ps u)|].
    split; [intros m; apply require_role_succeeds|].
    split; [apply require_tenant_succeeds|].
    split; [apply require_verified_email_succeeds|].
    apply require_platform_admin_succeeds.
Qed.

Lemma role_levels :
  role_level "owner" = 100 /\ role_level "admin" = 75 /\
  role_level "developer" = 50 /\ role_level "viewer" = 25.
Proof. repeat split; vm_compute; reflexivity. Qed.

Lemma rank_falsy (o : option string) : truthy o = false -> rank o = 0.
Proof.
  intros H. apply truthy_false in H. destruct H as [-> | ->].
  - reflexivity.
  - reflexivity.
Qed.

Lemma require_role_no_role (m : string) (u : AuthUser) :
  truthy (tenant_role (claims u)) = false ->
  require_role m u
  = Raise (HTTPException HTTP_403_FORBIDDEN
             (JDict {[ "code" := JStr "AUTH_301";
                       "message" := JStr "No tenant role";
                       "required_role" := JStr m ]}) []).
Proof.
  intros H. unfold require_role.
  destruct (tenant_role (claims u)) as [r|]; [|reflexivity].
  simpl in H. now rewrite H.
Qed.

(** C2, as the code has it: [require_role] succeeds exactly when the user
    has a tenant role (present and not the empty string) whose rank is at
    least the rank of [min_role]; without such a role it fails with the
    "No tenant role" error whatever [min_role] is.  For a [min_role] of
    positive rank this is the comparison of ranks alone.  The ranks are
    owner 100, admin 75, developer 50, viewer 25, any other name 0, and
    [require_role "admin"] passes owner and admin and rejects developer,
    viewer and a user without role. *)
Theorem require_role_iff_role_and_rank (m : string) (u : AuthUser) :
  (require_role m u = Return u <->
   truthy (tenant_role (claims u)) = true /\
   role_level m <= rank (tenant_role (claims u))) /\
  (0 < role_level m ->
   (require_role m u = Return u <->
    role_level m <= rank (tenant_role (claims u)))) /\
  (truthy (tenant_role (claims u)) = false ->
   require_role m u
   = Raise (HTTPException HTTP_403_FORBIDDEN
              (JDict {[ "code" := JStr "AUTH_301";
                        "message" := JStr "No tenant role";
                        "required_role" := JStr m ]}) [])) /\
  (role_level "owner" = 100 /\ role_level "admin" = 75 /\
   role_level "developer" = 50 /\ role_level "viewer" = 25) /\
  (forall r, r <> "owner" -> r <> "admin" -> r <> "developer" ->
             r <> "viewer" -> role_level r = 0) /\
  rank None = 0 /\
  (forall r, tenant_role (claims u) = Some r ->
             r = "owner" \/ r = "admin" ->
             require_role "admin" u = Return u) /\
  (forall r, tenant_role (claims u) = Some r ->
             r = "developer" \/ r = "viewer" ->
             succeeds (require_role "admin" u) = false) /\
  (tenant_role (claims u) = None ->
   require_role "admin" u
   = Raise (HTTPException HTTP_403_FORBIDDEN
              (JDict {[ "code" := JStr "AUTH_301";
                        "message" := JStr "No tenant role";
                        "required_role" := JStr "admin" ]}) [])).
Proof.
  split; [apply require_role_succeeds|].
  split.
  { intros Hpos. rewrite require_role_succeeds. split; [tauto|].
    intros Hle. split; [|exact Hle].
    destruct (truthy (tenant_role (claims u))) eqn:E; [reflexivity|].
    apply rank_falsy in E. lia. }
  split; [apply require_role_no_role|].
  split; [exact role_levels|].
  split; [exact role_level_unknown|].
  split; [reflexivity|].
  split.
  { intros r Hr [-> | ->]; unfold require_role; now rewrite Hr. }
  split.
  { intros r Hr [-> | ->]; unfold require_role; now rewrite Hr. }
  intros Hnone. apply require_role_no_role. now rewrite Hnone.
Qed.

(** C2 as stated fails: a user without tenant role has rank [0], which is
    not below the rank [0] of the unknown role name "guest", and is
    rejected all the same. *)
Lemma require_role_rank_alone_fails :
  rank (tenant_role (claims (tenant_user None None))) >= rank (Some "guest") /\
  require_role "guest" (tenant_user None None)
  = Raise (HTTPException HTTP_403_FORBIDDEN
             (JDict {[ "code" := JStr "AUTH_301";
                       "message" := JStr "No tenant role";
                       "required_role" := JStr "guest" ]}) []).
Proof. split; [vm_compute; discriminate | reflexivity]. Qed.

(** ** require_tenant *)

(** C9, as the code has it: [require_tenant] fails with the 403 error of
    code AUTH_302 (the specification's TENANT_REQUIRED) exactly when the
    tenant id is absent or the empty string, and returns the user
    unchanged in every other case. *)
Theorem require_tenant_iff_truthy (u : AuthUser) :
  (tenant_id (claims u) = None \/ tenant_id (claims u) = Some "" ->
   require_tenant u
   = Raise (HTTPException HTTP_403_FORBIDDEN
              (JDict {[ "code" := JStr "AUTH_302";
                        "message" := JStr "Tenant context required" ]}) []) /\
   (error_kind <$> raised (require_tenant u)) = Some (Some TENANT_REQUIRED)) /\
  (tenant_id (claims u) <> None /\ tenant_id (claims u) <> Some "" ->
   require_tenant u = Return u) /\
  (require_tenant u = Return u \/
   tenant_id (claims u) = None \/ tenant_id (claims u) = Some "").
Proof.
  destruct (truthy (tenant_id (claims u))) eqn:E.
  - assert (Hok : require_tenant u = Return u)
      by now apply require_tenant_succeeds.
    split; [|split].
    + intros H. apply truthy_false in H. congruence.
    + intros _. exact Hok.
    + now left.
  - assert (Hf := E). apply truthy_false in Hf.
    assert (Hr : require_tenant u
                 = Raise (HTTPException HTTP_403_FORBIDDEN
                            (JDict {[ "code" := JStr "AUTH_302";
                                      "message" :=
                                        JStr "Tenant context required" ]}) []))
      by (unfold require_tenant; now rewrite E).
    split; [|split].
    + intros _. split; [exact Hr|]. rewrite Hr. vm_compute. reflexivity.
    + intros [H1 H2]. destruct Hf; contradiction.
    + now right.
Qed.

(** C9 as stated fails: a tenant id that is present but empty is rejected
    like an absent one. *)
Lemma require_tenant_rejects_empty_id :
  tenant_id (claims (tenant_user (Some "") None)) <> None /\
  require_tenant (tenant_user (Some "") None)
  = Raise (HTTPException HTTP_403_FORBIDDEN
             (JDict {[ "code" := JStr "AUTH_302";
                       "message" := JStr "Tenant context required" ]}) []).
Proof. split; [discriminate | reflexivity]. Qed.

(** ** TokenVerifier *)

Lemma truthy_str_false (s : string) : truthy_str s = false <-> s = "".
Proof. unfold truthy_str. now rewrite negb_false_iff, String.eqb_eq. Qed.

Lemma truthy_str_true (s : string) : truthy_str s = true <-> s <> "".
Proof. unfold truthy_str. now rewrite negb_true_iff, String.eqb_neq. Qed.

Lemma decode_jwt_no_secret jwt_decode (token : string) :
  decode_jwt "" jwt_decode token
  = Raise (HTTPException HTTP_500_INTERNAL_SERVER_ERROR
             (JStr "JWT secret not configured") []).
Proof. reflexivity. Qed.

Lemma decode_jwt_with_secret (secret : string) jwt_decode (token : string) :
  secret <> "" ->
  decode_jwt secret jwt_decode token
  = match jwt_decode token secret ["HS256"] "authenticated" with
    | Decoded payload => Return payload
    | Raises ExpiredSignatureError =>
        Raise (HTTPException HTTP_401_UNAUTHORIZED
                 (JDict {[ "code" := JStr "AUTH_105";
                           "message" := JStr "Token expired" ]}) [])
    | Raises (InvalidTokenError msg) =>
        Raise (HTTPException HTTP_401_UNAUTHORIZED
                 (JDict {[ "code" := JStr "AUTH_106";
                           "message" := JStr ("Invalid token: " ++ msg) ]})
                 [])
    | Raises (OtherError cls msg) => Raise (LibraryError cls msg)
    end.
Proof.
  intros H. apply truthy_str_true in H. unfold decode_jwt. now rewrite H.
Qed.



(** ** ClaimsExtractor *)

Lemma get_current_user_decoded secret jwt_decode cred payload :
  decode_jwt secret jwt_decode (credentials cred) = Return payload ->
  get_current_user secret jwt_decode cred = user_of_payload payload.
Proof. intros H. unfold get_current_user. now rewrite H. Qed.

Lemma validate_all_str_map (ps : list string) :
  validate_all_str (map JStr ps) = Some ps.
Proof.
  induction ps as [|p ps IH]; [reflexivity|].
  simpl. now rewrite IH.
Qed.

Lemma user_of_payload_no_namespace (payload : gmap string json) :
  payload !! "olympus" = None ->
  user_of_payload payload
  = make_AuthUser (dict_get payload "sub" (JStr ""))
      (dict_get payload "email" (JStr ""))
      (dict_get payload "email_verified" (JBool false))
      OlympusClaims_default.
Proof.
  intros H. unfold user_of_payload, dict_get at 1. rewrite H. reflexivity.
Qed.

(** C7, as the code has it: for a verified payload without the "olympus"
    namespace whose "sub", "email" and "email_verified" claims are absent
    or of their declared type, [get_current_user] returns a user with the
    default claims (no tenant id, role, slug or plan tier, no permission,
    not a platform admin), whose [email_verified] is the payload's
    top-level "email_verified" claim ([false] when that is absent) and
    whose identifier is the "sub" claim, the empty string when that is
    absent.  Dropping the subject from any payload that extracts leaves it
    extracting, to the same user with the empty identifier. *)
Theorem get_current_user_defaults
    (secret : string)
    (jwt_decode : string -> string -> list string -> string -> jwt_outcome)
    (cred : HTTPAuthorizationCredentials) (payload : gmap string json) :
  decode_jwt secret jwt_decode (credentials cred) = Return payload ->
  (payload !! "olympus" = None ->
   str_or_absent (payload !! "sub") ->
   str_or_absent (payload !! "email") ->
   bool_or_absent (payload !! "email_verified") ->
   exists u,
     get_current_user secret jwt_decode cred = Return u /\
     claims u = OlympusClaims_default /\
     tenant_id (claims u) = None /\ tenant_role (claims u) = None /\
     tenant_slug (claims u) = None /\ plan_tier (claims u) = None /\
     permissions (claims u) = [] /\
     is_platform_admin (claims u) = false /\
     JBool (email_verified u)
     = dict_get payload "email_verified" (JBool false) /\
     (payload !! "email_verified" = None -> email_verified u = false) /\
     JStr (id_ u) = dict_get payload "sub" (JStr "") /\
     (payload !! "sub" = None -> id_ u = "")) /\
  (forall u, user_of_payload payload = Return u ->
             user_of_payload (delete "sub" payload) = Return (with_id "" u)).
Proof.
  intros Hdec. split.
  - intros Hns Hsub Hem Hev.
    rewrite (get_current_user_decoded _ _ _ _ Hdec).
    rewrite (user_of_payload_no_namespace _ Hns).
    unfold dict_get.
    destruct Hsub as [-> | [s ->]]; destruct Hem as [-> | [e ->]];
      destruct Hev as [-> | [b ->]]; simpl;
      eexists; repeat split; try reflexivity; try discriminate;
      intros _; reflexivity.
  - intros u Hu. unfold user_of_payload in *. unfold dict_get at 1.
    unfold dict_get at 1 in Hu.
    rewrite lookup_delete_ne by discriminate.
    destruct (default (JDict ∅) (payload !! "olympus")); try discriminate.
    destruct (make_OlympusClaims _ _ _ _ _ _) as [c|e]; simpl in *;
      [|discriminate].
    unfold make_AuthUser in *. unfold dict_get in *.
    rewrite lookup_delete_eq. rewrite !lookup_delete_ne by discriminate.
    simpl.
    destruct (validate_str (default (JStr "") (payload !! "sub")));
      [|discriminate].
    destruct (validate_str (default (JStr "") (payload !! "email")));
      [|discriminate].
    destruct (validate_bool _); [|discriminate].
    injection Hu as <-. reflexivity.
Qed.

(** C7 as stated fails: a payload without namespace that carries
    "email_verified": true yields a verified user. *)
Lemma no_namespace_keeps_email_verified :
  payload_verified_email !! "olympus" = None /\
  exists u,
    get_current_user "s3cret" (jwt_decodes_to payload_verified_email)
      (bearer "t") = Return u /\
    email_verified u = true.
Proof.
  split; [reflexivity|].
  eexists. split; [vm_compute; reflexivity | reflexivity].
Qed.

(** ** The permission list *)

Lemma user_of_payload_with_permissions (ps : list string) :
  user_of_payload (payload_with_permissions ps)
  = Return (user_with_permissions ps).
Proof.
  unfold user_of_payload, payload_with_permissions, dict_get.
  rewrite lookup_insert_ne by discriminate. rewrite lookup_singleton_eq.
  simpl. rewrite lookup_singleton_eq. simpl.
  unfold make_OlympusClaims. simpl. rewrite validate_all_str_map. reflexivity.
Qed.

Lemma py_in_same_elements (x : string) (l1 l2 : list string) :
  (forall y, In y l1 <-> In y l2) -> py_in x l1 = py_in x l2.
Proof.
  intros H. apply eq_true_iff_eq. rewrite !py_in_In. apply H.
Qed.

Lemma has_any_same_elements (ps l1 l2 : list string) :
  (forall y, In y l1 <-> In y l2) ->
  existsb (fun p => py_in p l1) ps = existsb (fun p => py_in p l2) ps.
Proof.
  intros H. induction ps as [|p ps IH]; [reflexivity|].
  simpl. now rewrite IH, (py_in_same_elements p l1 l2 H).
Qed.

Lemma validate_all_str_inv (xs : list json) (ps : list string) :
  validate_all_str xs = Some ps -> xs = map JStr ps.
Proof.
  revert ps. induction xs as [|x xs IH]; intros ps H; simpl in H.
  - injection H as <-. reflexivity.
  - destruct x; try discriminate. simpl in H.
    destruct (validate_all_str xs) as [ss|]; [|discriminate].
    injection H as <-. simpl. now rewrite (IH ss eq_refl).
Qed.

Lemma user_of_payload_permissions (payload : gmap string json) (u : AuthUser) :
  user_of_payload payload = Return u ->
  exists olympus,
    dict_get payload "olympus" (JDict ∅) = JDict olympus /\
    dict_get olympus "permissions" (JList [])
    = JList (map JStr (permissions (claims u))).
Proof.
  unfold user_of_payload. intros H.
  destruct (dict_get payload "olympus" (JDict ∅)) as [ | | | | |olympus];
    try discriminate.
  exists olympus. split; [reflexivity|].
  unfold make_OlympusClaims in H.
  destruct (validate_optional_str (dict_get olympus "tenant_id" JNull));
    [|discriminate].
  destruct (validate_optional_str (dict_get olympus "tenant_role" JNull));
    [|discriminate].
  destruct (validate_optional_str (dict_get olympus "tenant_slug" JNull));
    [|discriminate].
  destruct (dict_get olympus "permissions" (JList [])) as [ | | | |xs| ];
    try discriminate.
  simpl in H.
  destruct (validate_all_str xs) as [ps|] eqn:E; [|discriminate].
  destruct (validate_optional_str (dict_get olympus "plan_tier" JNull));
    [|discriminate].
  destruct (validate_bool _); [|discriminate].
  simpl in H. unfold make_AuthUser in H.
  destruct (validate_str (dict_get payload "sub" (JStr ""))); [|discriminate].
  destruct (validate_str (dict_get payload "email" (JStr "")));
    [|discriminate].
  destruct (validate_bool _); [|discriminate].
  injection H as <-. simpl. now rewrite (validate_all_str_inv _ _ E).
Qed.

(** C8, as the code has it: the user that [get_current_user] returns
    carries the permission list of the verified token as it is, element
    by element, in its order and with its repetitions; nothing turns it
    into a set.  The error or success of [require_permission] and of
    [require_any_permission] depends only on which strings occur in the
    user's list: it is the same for two users whose lists have the same
    elements, and the check succeeds exactly when the wildcard or a
    required permission occurs in the list. *)
Theorem permission_checks_depend_on_elements (u1 u2 : AuthUser) :
  (forall y, In y (permissions (claims u1)) <->
             In y (permissions (claims u2))) ->
  (forall p, raised (require_permission p u1)
             = raised (require_permission p u2)) /\
  (forall ps, raised (require_any_permission ps u1)
              = raised (require_any_permission ps u2)) /\
  (forall p, require_permission p u1 = Return u1 <->
             In "*" (permissions (claims u1)) \/
             In p (permissions (claims u1))) /\
  (forall ps, require_any_permission ps u1 = Return u1 <->
              In "*" (permissions (claims u1)) \/
              exists p, In p ps /\ In p (permissions (claims u1))) /\
  (forall secret jwt_decode cred u,
     get_current_user secret jwt_decode cred = Return u ->
     exists payload olympus,
       decode_jwt secret jwt_decode (credentials cred) = Return payload /\
       dict_get payload "olympus" (JDict ∅) = JDict olympus /\
       dict_get olympus "permissions" (JList [])
       = JList (map JStr (permissions (claims u)))) /\
  (forall l, user_of_payload (payload_with_permissions l)
             = Return (user_with_permissions l)).
Proof.
  intros H. set (l1 := permissions (claims u1)) in *.
  set (l2 := permissions (claims u2)) in *.
  split; [intros p | split; [intros ps | split; [intros p | split;
    [intros ps | split]]]].
  - unfold require_permission. fold l1 l2.
    rewrite (py_in_same_elements "*" l1 l2 H).
    rewrite (py_in_same_elements p l1 l2 H).
    destruct (py_in "*" l2); [reflexivity|].
    now destruct (py_in p l2).
  - unfold require_any_permission. fold l1 l2.
    rewrite (py_in_same_elements "*" l1 l2 H).
    rewrite (has_any_same_elements ps l1 l2 H).
    destruct (py_in "*" l2); [reflexivity|].
    now destruct (existsb _ ps).
  - unfold require_permission. fold l1. split.
    + destruct (py_in "*" l1) eqn:E1; [intros _; left; now apply py_in_In|].
      destruct (py_in p l1) eqn:E2; simpl; [|discriminate].
      intros _. right. now apply py_in_In.
    + intros [Hs | Hp].
      * apply py_in_In in Hs. now rewrite Hs.
      * apply py_in_In in Hp. rewrite Hp. now destruct (py_in "*" l1).
  - unfold require_any_permission. fold l1. split.
    + destruct (py_in "*" l1) eqn:E1; [intros _; left; now apply py_in_In|].
      destruct (existsb _ ps) eqn:E2; simpl; [|discriminate].
      intros _. right. apply existsb_exists in E2.
      destruct E2 as (p & Hp & Hin). exists p. split; [exact Hp|].
      now apply py_in_In.
    + intros [Hs | (p & Hp & Hin)].
      * apply py_in_In in Hs. now rewrite Hs.
      * destruct (py_in "*" l1); [reflexivity|].
        assert (E : existsb (fun p => py_in p l1) ps = true).
        { apply existsb_exists. exists p. split; [exact Hp|].
          now apply py_in_In. }
        now rewrite E.
  - intros secret jwt_decode cred u Hu. unfold get_current_user in Hu.
    destruct (decode_jwt secret jwt_decode (credentials cred))
      as [payload|e]; [|discriminate].
    simpl in Hu. destruct (user_of_payload_permissions _ _ Hu)
      as (olympus & Ho & Hp).
    exists payload, olympus. auto.
  - apply user_of_payload_with_permissions.
Qed.

Lemma same_elements_read_write (y : string) :
  In y ["read"; "write"; "read"] <-> In y ["write"; "read"].
Proof. simpl. tauto. Qed.

(** C8 as stated fails: two token permission lists with the same elements
    yield different users; the list is kept, not turned into a set. *)
Lemma extraction_keeps_order_and_duplicates :
  (forall y, In y ["read"; "write"; "read"] <-> In y ["write"; "read"]) /\
  user_of_payload (payload_with_permissions ["read"; "write"; "read"])
  <> user_of_payload (payload_with_permissions ["write"; "read"]) /\
  (exists u,
     user_of_payload (payload_with_permissions ["read"; "write"; "read"])
     = Return u /\
     permissions (claims u) = ["read"; "write"; "read"]).
Proof.
  split; [exact same_elements_read_write|].
  rewrite !user_of_payload_with_permissions. split.
  - discriminate.
  - eexists. split; reflexivity.
Qed.

(** ** get_optional_user *)

(** C10: [get_optional_user] is to return the user or [None].  For a
    token that verifies and whose "olympus" claim is [null],
    [get_current_user] ends with an [AttributeError], which
    [get_optional_user] does not catch: it raises instead of returning
    [None]. *)
Lemma get_optional_user_can_raise :
  get_optional_user "s3cret" (jwt_decodes_to payload_null_namespace)
    (Some (bearer "t"))
  = Raise (AttributeError "object has no attribute 'get'").
Proof. vm_compute. reflexivity. Qed.

(** ** Rate-limit keys *)

Lemma list_ascii_of_append (a b : string) :
  list_ascii_of_string (a ++ b)
  = (list_ascii_of_string a ++ list_ascii_of_string b)%list.
Proof. induction a as [|c a IH]; simpl; [reflexivity | now rewrite IH]. Qed.

Lemma list_ascii_of_string_inj (a b : string) :
  list_ascii_of_string a = list_ascii_of_string b -> a = b.
Proof.
  intros H. rewrite <- (string_of_list_ascii_of_string a).
  rewrite <- (string_of_list_ascii_of_string b). now rewrite H.
Qed.

Lemma append_inv_tail (a b t : string) : a ++ t = b ++ t -> a = b.
Proof.
  intros H. apply list_ascii_of_string_inj.
  apply (f_equal list_ascii_of_string) in H.
  rewrite !list_ascii_of_append in H. now apply app_inv_tail in H.
Qed.

Lemma append_inv_head (p a b : string) : p ++ a = p ++ b -> a = b.
Proof.
  intros H. apply list_ascii_of_string_inj.
  apply (f_equal list_ascii_of_string) in H.
  rewrite !list_ascii_of_append in H. now apply app_inv_head in H.
Qed.

Lemma _get_key_suffix (request : Request) (prefix : string) :
  _get_key request prefix = prefix ++ key_suffix request.
Proof.
  unfold key_suffix, _get_key.
  destruct (truthy (headers_get (headers request) "x-user-id"));
    reflexivity.
Qed.

Lemma _cleanup_other (key key' : string) (window_ms : Z) (w : World) :
  key' <> key ->
  requests (_cleanup key window_ms w) !! key' = requests w !! key'.
Proof.
  intros H. unfold _cleanup. simpl. now rewrite lookup_insert_ne.
Qed.

Lemma check_other (request : Request) (window_ms max_requests : Z)
    (prefix key' : string) (w : World) :
  key' <> _get_key request prefix ->
  requests (snd (check request window_ms max_requests prefix w)) !! key'
  = requests w !! key'.
Proof.
  intros H. unfold check. simpl.
  destruct (Z.leb max_requests _); simpl.
  - now rewrite lookup_insert_ne.
  - rewrite lookup_insert_ne by congruence. now rewrite lookup_insert_ne.
Qed.

(** C6, as the code has it: the key is the prefix followed by ":user:" and
    the "x-user-id" header when that header is present and not empty;
    else by ":ip:" and the stripped left-most entry of "x-forwarded-for"
    when that header is present and not empty; else by ":ip:" and the
    address of the connected peer when the request has one; else by
    ":ip:unknown".  Two requests that get the same key under one prefix
    get different keys under different prefixes, and a check under one key
    leaves the record of every other key as it was. *)
Theorem _get_key_derivation (request : Request) (prefix : string) :
  (forall uid, headers_get (headers request) "x-user-id" = Some uid ->
               uid <> "" ->
               _get_key request prefix = prefix ++ ":user:" ++ uid) /\
  (truthy (headers_get (headers request) "x-user-id") = false ->
   (forall forwarded,
      headers_get (headers request) "x-forwarded-for" = Some forwarded ->
      forwarded <> "" ->
      _get_key request prefix
      = prefix ++ ":ip:" ++ strip (hd "" (split "," forwarded))) /\
   (truthy (headers_get (headers request) "x-forwarded-for") = false ->
    (forall a, client request = Some a ->
               _get_key request prefix = prefix ++ ":ip:" ++ host a) /\
    (client request = None ->
     _get_key request prefix = prefix ++ ":ip:unknown"))) /\
  (forall request' prefix',
     _get_key request prefix = _get_key request' prefix ->
     prefix <> prefix' ->
     _get_key request prefix <> _get_key request' prefix') /\
  (forall window_ms max_requests key' w,
     key' <> _get_key request prefix ->
     requests (snd (check request window_ms max_requests prefix w)) !! key'
     = requests w !! key').
Proof.
  split; [|split; [|split]].
  - intros uid Hh Hne. unfold _get_key. rewrite Hh. simpl.
    apply truthy_str_true in Hne. now rewrite Hne.
  - intros Hu. unfold _get_key. rewrite Hu. split.
    + intros forwarded Hf Hne. rewrite Hf. simpl.
      apply truthy_str_true in Hne. now rewrite Hne.
    + intros Hf. rewrite Hf. split.
      * intros a Ha. now rewrite Ha.
      * intros Hn. now rewrite Hn.
  - intros request' prefix' Hsame Hne Heq.
    rewrite !_get_key_suffix in Hsame, Heq.
    apply append_inv_head in Hsame. rewrite Hsame in Heq.
    apply append_inv_tail in Heq. contradiction.
  - intros window_ms max_requests key' w H. now apply check_other.
Qed.

(** C6 as stated fails: without the two headers the key carries the
    address of the connected peer, not "unknown". *)
Lemma _get_key_uses_peer_address :
  headers_get (headers direct_request) "x-user-id" = None /\
  headers_get (headers direct_request) "x-forwarded-for" = None /\
  _get_key direct_request "api" = "api:ip:10.0.0.1" /\
  claimed_key direct_request "api" = "api:ip:unknown" /\
  _get_key direct_request "api" <> claimed_key direct_request "api".
Proof. repeat split. discriminate. Qed.

(** ** RateLimiter *)

Lemma Qgtb_lt (t c : Q) : Qgtb t c = true <-> (c < t)%Q.
Proof.
  unfold Qgtb. rewrite negb_true_iff. split.
  - intros H. apply Qnot_le_lt. intros Hle.
    apply Qle_bool_iff in Hle. congruence.
  - intros H. destruct (Qle_bool t c) eqn:E; [|reflexivity].
    apply Qle_bool_iff in E. exfalso. exact (Qlt_not_le _ _ H E).
Qed.

Lemma filter_keeps_all (f : Q -> bool) (l : list Q) :
  (forall t, In t l -> f t = true) -> List.filter f l = l.
Proof.
  induction l as [|x l IH]; intros H; [reflexivity|].
  simpl. rewrite (H x) by (left; reflexivity).
  f_equal. apply IH. intros t Ht. apply H. now right.
Qed.

Lemma requests_of_insert (key : string) (l : list Q) (w : World) :
  requests_of (set_requests (<[key := l]> (requests w)) w) key = l.
Proof. unfold requests_of. simpl. now rewrite lookup_insert_eq. Qed.

Lemma requests_of_cleanup (key : string) (window_ms : Z) (w : World) :
  requests_of (_cleanup key window_ms w) key
  = List.filter
      (fun t => Qgtb t (float_sub (clock w (reads w)) (window_seconds window_ms)))
      (requests_of w key).
Proof.
  unfold _cleanup, requests_of. simpl. now rewrite lookup_insert_eq.
Qed.

Lemma check_eq (request : Request) (window_ms max_requests : Z)
    (prefix : string) (w : World) :
  check request window_ms max_requests prefix w
  = let key := _get_key request prefix in
    let now := clock w (reads w) in
    let w2 := _cleanup key window_ms (snd (time_time w)) in
    let count := Z.of_nat (length (requests_of w2 key)) in
    if Z.leb max_requests count then
      ((false, 0, (float_add now (window_seconds window_ms))), w2)
    else
      ((true, Z.max 0 (max_requests - count - 1),
        (float_add now (window_seconds window_ms))),
       set_requests
         (<[key := (requests_of w2 key ++ [now])%list]> (requests w2)) w2).
Proof. reflexivity. Qed.

(** One check, in terms of the timestamps that survive the pruning. *)
Lemma check_unfold (request : Request) (window_ms max_requests : Z)
    (prefix : string) (w : World) :
  let key := _get_key request prefix in
  let now := clock w (reads w) in
  let cutoff := (float_sub (clock w (S (reads w))) (window_seconds window_ms)) in
  let kept := List.filter (fun t => Qgtb t cutoff) (requests_of w key) in
  let count := Z.of_nat (length kept) in
  let r := check request window_ms max_requests prefix w in
  clock (snd r) = clock w /\ reads (snd r) = S (S (reads w)) /\
  (max_requests <= count ->
   fst r = (false, 0, (float_add now (window_seconds window_ms))) /\
   requests_of (snd r) key = kept) /\
  (count < max_requests ->
   fst r = (true, Z.max 0 (max_requests - count - 1),
            (float_add now (window_seconds window_ms))) /\
   requests_of (snd r) key = (kept ++ [now])%list).
Proof.
  cbv zeta. rewrite check_eq. cbv zeta.
  rewrite requests_of_cleanup.
  change (requests_of (snd (time_time w)) (_get_key request prefix))
    with (requests_of w (_get_key request prefix)).
  change (clock (snd (time_time w)) (reads (snd (time_time w))))
    with (clock w (S (reads w))).
  destruct (Z.leb_spec max_requests
              (Z.of_nat (length (List.filter
                 (fun t => Qgtb t
                    (float_sub (clock w (S (reads w))) (window_seconds window_ms)))
                 (requests_of w (_get_key request prefix))))))
    as [Hle | Hlt]; cbn [fst snd].
  - split; [reflexivity|]. split; [reflexivity|]. split.
    + intros _. split; [reflexivity|].
      exact (requests_of_cleanup _ window_ms (snd (time_time w))).
    + intros H. lia.
  - split; [reflexivity|]. split; [reflexivity|]. split.
    + intros H. lia.
    + intros _. split; [reflexivity|].
      unfold requests_of at 1. cbn [requests set_requests].
      now rewrite lookup_insert_eq.
Qed.

Lemma checks_S (n : nat) (request : Request) (window_ms max_requests : Z)
    (prefix : string) (w : World) :
  let r := check request window_ms max_requests prefix w in
  fst (checks (S n) request window_ms max_requests prefix w)
  = fst r :: fst (checks n request window_ms max_requests prefix (snd r)) /\
  snd (checks (S n) request window_ms max_requests prefix w)
  = snd (checks n request window_ms max_requests prefix (snd r)).
Proof.
  cbv zeta. cbn [checks].
  destruct (check request window_ms max_requests prefix w) as [r w1].
  cbn [fst snd].
  destruct (checks n request window_ms max_requests prefix w1) as [rs w2].
  split; reflexivity.
Qed.

Lemma int_of_le (q : Q) (n : Z) : (q <= inject_Z n)%Q -> int_of q <= n.
Proof.
  unfold Qle, int_of. simpl. rewrite Z.mul_1_r. intros H.
  rewrite <- (Z.quot_mul n (Zpos (Qden q))) by discriminate.
  apply Z.quot_le_mono; [reflexivity | exact H].
Qed.

(** When every recorded timestamp is younger than the cut-off, nothing is
    pruned. *)
Lemma check_nothing_pruned (request : Request) (window_ms max_requests : Z)
    (prefix : string) (w : World) :
  let key := _get_key request prefix in
  let now := clock w (reads w) in
  let r := check request window_ms max_requests prefix w in
  let n := Z.of_nat (length (requests_of w key)) in
  (forall t, In t (requests_of w key) ->
             (float_sub (clock w (S (reads w))) (window_seconds window_ms)
              < t)%Q) ->
  clock (snd r) = clock w /\ reads (snd r) = S (S (reads w)) /\
  (max_requests <= n ->
   fst r = (false, 0, (float_add now (window_seconds window_ms))) /\
   requests_of (snd r) key = requests_of w key) /\
  (n < max_requests ->
   fst r = (true, max_requests - n - 1,
            (float_add now (window_seconds window_ms))) /\
   requests_of (snd r) key = (requests_of w key ++ [now])%list).
Proof.
  intros key now r n Hall.
  destruct (check_unfold request window_ms max_requests prefix w)
    as (Hc & Hr & Hdeny & Hadmit).
  fold key in Hdeny, Hadmit.
  rewrite (filter_keeps_all _ (requests_of w key)) in Hdeny, Hadmit
    by (intros t Ht; apply Qgtb_lt; now apply Hall).
  split; [exact Hc|]. split; [exact Hr|]. split.
  - exact Hdeny.
  - intros Hlt. destruct (Hadmit Hlt) as [H1 H2]. split; [|exact H2].
    unfold r. rewrite H1. fold n. now rewrite Z.max_r by lia.
Qed.

(** [n] checks in a row, all within one window after [lo] and with room
    left, are admitted. *)
Lemma checks_admitted (request : Request) (window_ms max_requests : Z)
    (prefix : string) (lo : Q) (n : nat) :
  forall w : World,
    let key := _get_key request prefix in
    let r := checks n request window_ms max_requests prefix w in
    (forall t, In t (requests_of w key) -> (lo <= t)%Q) ->
    (forall i, (reads w <= i < reads w + 2 * n)%nat ->
               (lo <= clock w i)%Q /\
               (float_sub (clock w i) (window_seconds window_ms) < lo)%Q) ->
    Z.of_nat (length (requests_of w key)) + Z.of_nat n <= max_requests ->
    map verdict (fst r)
    = countdown n
        (max_requests - Z.of_nat (length (requests_of w key)) - 1) /\
    clock (snd r) = clock w /\
    reads (snd r) = (reads w + 2 * n)%nat /\
    length (requests_of (snd r) key)
    = (length (requests_of w key) + n)%nat /\
    (forall t, In t (requests_of (snd r) key) -> (lo <= t)%Q).
Proof.
  induction n as [|n IH]; intros w key r Hlo Hclk Hroom.
  - unfold r. simpl. repeat split; try lia. exact Hlo.
  - destruct (checks_S n request window_ms max_requests prefix w)
      as [Hf Hs].
    destruct (check_nothing_pruned request window_ms max_requests prefix w)
      as (Hc & Hr & _ & Hadmit).
    { intros t Ht. apply Hlo in Ht.
      assert (Hb := proj2 (Hclk (S (reads w)) ltac:(lia))).
      clear -Ht Hb. lra. }
    fold key in Hadmit.
    destruct (Hadmit ltac:(lia)) as [H1 H2].
    set (w1 := snd (check request window_ms max_requests prefix w)) in *.
    specialize (IH w1). cbv zeta in IH. fold key in IH.
    rewrite Hc, Hr, H2 in IH. rewrite length_app in IH. simpl length in IH.
    destruct IH as (I1 & I2 & I3 & I4 & I5).
    + intros t Ht. apply in_app_or in Ht. destruct Ht as [Ht | [<- | []]].
      * now apply Hlo.
      * destruct (Hclk (reads w)) as [Ha _]; [lia | exact Ha].
    + intros i Hi. apply Hclk. lia.
    + lia.
    + unfold r. rewrite Hf, Hs. fold w1.
      split; [|split; [|split; [|split]]].
      * cbn [map countdown]. rewrite I1, H1. unfold verdict at 1.
        cbn [fst]. do 2 f_equal. lia.
      * exact I2.
      * rewrite I3. lia.
      * rewrite I4. lia.
      * exact I5.
Qed.

Lemma monotone_ticking : monotone_clock ticking_world.
Proof.
  intros i j Hij. simpl. rewrite <- Zle_Qle. lia.
Qed.

(** ** Examples *)

Example split_forwarded :
  split "," "1.2.3.4, 10.0.0.1" = ["1.2.3.4"; " 10.0.0.1"].
Proof. reflexivity. Qed.

Example strip_spaces : strip "  ab c  " = "ab c".
Proof. reflexivity. Qed.

Example str_of_int_60 : str_of_int 60 = "60".
Proof. vm_compute. reflexivity. Qed.

Example _get_key_forwarded :
  _get_key {| headers := [("x-forwarded-for", "1.2.3.4 , 10.0.0.1")];
              client := Some {| host := "10.0.0.9"; port := 443 |} |} "auth"
  = "auth:ip:1.2.3.4".
Proof. reflexivity. Qed.

Example _get_key_empty_user_id :
  _get_key {| headers := [("x-user-id", "")]; client := None |} "api"
  = "api:ip:unknown".
Proof. reflexivity. Qed.

(** * Further properties of the package *)

(** ** RateLimiter: the record of a key *)

Lemma check_cases (request : Request) (window_ms max_requests : Z)
    (prefix : string) (w : World) :
  let key := _get_key request prefix in
  let kept := kept_of key window_ms w in
  let count := Z.of_nat (length kept) in
  let now := clock w (reads w) in
  let r := check request window_ms max_requests prefix w in
  (max_requests <= count /\
   fst r = (false, 0, (float_add now (window_seconds window_ms))) /\
   requests_of (snd r) key = kept) \/
  (count < max_requests /\
   fst r = (true, max_requests - count - 1,
            (float_add now (window_seconds window_ms))) /\
   requests_of (snd r) key = (kept ++ [now])%list).
Proof.
  intros key kept count now r.
  destruct (check_unfold request window_ms max_requests prefix w)
    as (_ & _ & Hdeny & Hadmit).
  fold key in Hdeny, Hadmit. fold (kept_of key window_ms w) in Hdeny, Hadmit.
  fold kept in Hdeny, Hadmit. fold count in Hdeny, Hadmit.
  destruct (Z.le_gt_cases max_requests count) as [Hle | Hlt].
  - left. split; [exact Hle|]. exact (Hdeny Hle).
  - right. split; [exact Hlt|]. destruct (Hadmit Hlt) as [H1 H2].
    split; [|exact H2]. unfold r. rewrite H1.
    now rewrite Z.max_r by lia.
Qed.

Lemma filter_length_le_Q (f : Q -> bool) (l : list Q) :
  (length (List.filter f l) <= length l)%nat.
Proof.
  induction l as [|x l IH]; simpl; [lia|].
  destruct (f x); simpl; lia.
Qed.

Lemma filter_drops_all (f : Q -> bool) (l : list Q) :
  (forall t, In t l -> f t = false) -> List.filter f l = [].
Proof.
  induction l as [|x l IH]; intros H; [reflexivity|].
  simpl. rewrite (H x) by (left; reflexivity).
  apply IH. intros t Ht. apply H. now right.
Qed.

Lemma Qgtb_le (t c : Q) : Qgtb t c = false <-> (t <= c)%Q.
Proof.
  unfold Qgtb. rewrite negb_false_iff. apply Qle_bool_iff.
Qed.

(** After a check the record of its key is no longer than the larger of
    its former length and [max_requests]. *)
Lemma check_record_length (request : Request) (window_ms max_requests : Z)
    (prefix : string) (w : World) :
  let key := _get_key request prefix in
  Z.of_nat
    (length
       (requests_of (snd (check request window_ms max_requests prefix w))
          key))
  <= Z.max (Z.of_nat (length (requests_of w key))) max_requests.
Proof.
  intros key.
  assert (Hk : (length (kept_of key window_ms w)
                <= length (requests_of w key))%nat)
    by apply filter_length_le_Q.
  destruct (check_cases request window_ms max_requests prefix w)
    as [(Hc & _ & Hr) | (Hc & _ & Hr)]; fold key in Hc, Hr; rewrite Hr.
  - lia.
  - rewrite length_app. simpl. lia.
Qed.

(** X1: checks never let the record of a key grow beyond
    [max_requests]: after any number of successive checks of a request
    the record of its key is no longer than the larger of its former
    length and [max_requests]. *)
Theorem checks_record_length (n : nat) (request : Request)
    (window_ms max_requests : Z) (prefix : string) (w : World) :
  let key := _get_key request prefix in
  Z.of_nat
    (length
       (requests_of
          (snd (checks n request window_ms max_requests prefix w)) key))
  <= Z.max (Z.of_nat (length (requests_of w key))) max_requests.
Proof.
  intros key. revert w.
  induction n as [|n IH]; intros w.
  - simpl. lia.
  - destruct (checks_S n request window_ms max_requests prefix w)
      as [_ Hs].
    rewrite Hs.
    specialize (IH (snd (check request window_ms max_requests prefix w))).
    assert (H1 := check_record_length request window_ms max_requests
                    prefix w).
    cbv zeta in H1. fold key in H1. lia.
Qed.

(** X2: the remaining count of a check is never negative and never
    reaches [max_requests]; a denied check reports [0]; the reset time is
    the float sum of [now] and [window_ms / 1000]. *)
Theorem check_remaining_bounds (request : Request)
    (window_ms max_requests : Z) (prefix : string) (w : World) :
  let r := fst (check request window_ms max_requests prefix w) in
  let allowed := fst (fst r) in
  let remaining := snd (fst r) in
  0 <= remaining /\
  remaining <= Z.max 0 (max_requests - 1) /\
  (allowed = false -> remaining = 0) /\
  (allowed = true -> remaining < max_requests) /\
  snd r = (float_add (clock w (reads w)) (window_seconds window_ms)).
Proof.
  cbv zeta.
  destruct (check_cases request window_ms max_requests prefix w)
    as [(Hc & Hf & _) | (Hc & Hf & _)]; rewrite Hf; cbn [fst snd].
  - repeat split; try lia; try discriminate.
  - repeat split; try lia; try discriminate.
Qed.

(** X3: with a limit that is not positive every check is denied, with 0
    remaining and the float sum of [now] and [window_ms / 1000] as reset
    time, and the record is only pruned: it becomes the timestamps above
    the cut-off of [_cleanup]. *)
Theorem check_nonpositive_limit (request : Request)
    (window_ms max_requests : Z) (prefix : string) (w : World) :
  max_requests <= 0 ->
  let key := _get_key request prefix in
  let r := check request window_ms max_requests prefix w in
  fst r = (false, 0, (float_add (clock w (reads w)) (window_seconds window_ms))) /\
  requests_of (snd r) key = kept_of key window_ms w.
Proof.
  intros Hm key r.
  destruct (check_cases request window_ms max_requests prefix w)
    as [(Hc & Hf & Hr) | (Hc & Hf & Hr)].
  - split; [exact Hf | exact Hr].
  - lia.
Qed.

(** X4: once every recorded timestamp of the key is at or below the
    cut-off of the check (the float difference of the clock reading of
    [_cleanup] and [window_ms / 1000]), the budget is whole again: with a
    positive limit the check is admitted with [max_requests - 1]
    remaining and the record is the single timestamp [now]. *)
Theorem check_after_window (request : Request)
    (window_ms max_requests : Z) (prefix : string) (w : World) :
  let key := _get_key request prefix in
  let now := clock w (reads w) in
  let r := check request window_ms max_requests prefix w in
  (forall t, In t (requests_of w key) ->
             (t <= float_sub (clock w (S (reads w)))
                    (window_seconds window_ms))%Q) ->
  0 < max_requests ->
  fst r = (true, max_requests - 1, (float_add now (window_seconds window_ms))) /\
  requests_of (snd r) key = [now].
Proof.
  intros key now r Hold Hpos.
  assert (Hk : kept_of key window_ms w = []).
  { unfold kept_of. apply filter_drops_all. intros t Ht.
    apply Qgtb_le. now apply Hold. }
  destruct (check_cases request window_ms max_requests prefix w)
    as [(Hc & Hf & Hr) | (Hc & Hf & Hr)];
    fold key in Hc, Hf, Hr; rewrite Hk in Hc, Hr; try rewrite Hk in Hf;
    simpl in Hc.
  - lia.
  - split; [|exact Hr]. unfold r. rewrite Hf. simpl. do 2 f_equal. lia.
Qed.

(** ** RateLimiter: a burst within one window *)

Lemma checks_app (a b : nat) (request : Request) (window_ms max_requests : Z)
    (prefix : string) (w : World) :
  let ra := checks a request window_ms max_requests prefix w in
  let rb := checks b request window_ms max_requests prefix (snd ra) in
  fst (checks (a + b) request window_ms max_requests prefix w)
  = (fst ra ++ fst rb)%list /\
  snd (checks (a + b) request window_ms max_requests prefix w) = snd rb.
Proof.
  revert w. induction a as [|a IH]; intros w.
  - split; reflexivity.
  - cbv zeta in *. change (S a + b)%nat with (S (a + b)).
    destruct (checks_S (a + b) request window_ms max_requests prefix w)
      as [Hf Hs].
    destruct (checks_S a request window_ms max_requests prefix w)
      as [Hf' Hs'].
    rewrite Hf, Hs, Hf', Hs'.
    destruct (IH (snd (check request window_ms max_requests prefix w)))
      as [I1 I2].
    rewrite I1, I2. split; reflexivity.
Qed.

(** [k] checks in a row on a full record, all within one window after
    [lo], are denied and leave the record as it is. *)
Lemma checks_denied (request : Request) (window_ms max_requests : Z)
    (prefix : string) (lo : Q) (k : nat) :
  forall w : World,
    let key := _get_key request prefix in
    let r := checks k request window_ms max_requests prefix w in
    (forall t, In t (requests_of w key) -> (lo <= t)%Q) ->
    (forall i, (reads w <= i < reads w + 2 * k)%nat ->
               (float_sub (clock w i) (window_seconds window_ms) < lo)%Q) ->
    max_requests <= Z.of_nat (length (requests_of w key)) ->
    map verdict (fst r) = repeat (false, 0) k /\
    requests_of (snd r) key = requests_of w key /\
    clock (snd r) = clock w /\
    reads (snd r) = (reads w + 2 * k)%nat.
Proof.
  induction k as [|k IH]; intros w key r Hlo Hclk Hfull.
  - unfold r. simpl. repeat split. lia.
  - destruct (checks_S k request window_ms max_requests prefix w)
      as [Hf Hs].
    destruct (check_nothing_pruned request window_ms max_requests prefix w)
      as (Hc & Hr & Hdeny & _).
    { intros t Ht. apply Hlo in Ht.
      assert (Hb := Hclk (S (reads w)) ltac:(lia)).
      clear -Ht Hb. lra. }
    fold key in Hdeny. destruct (Hdeny Hfull) as [H1 H2].
    set (w1 := snd (check request window_ms max_requests prefix w)) in *.
    specialize (IH w1). cbv zeta in IH. fold key in IH.
    rewrite Hc, Hr, H2 in IH.
    destruct IH as (I1 & I2 & I3 & I4).
    + exact Hlo.
    + intros i Hi. apply Hclk. lia.
    + exact Hfull.
    + unfold r. rewrite Hf, Hs. fold w1.
      split; [|split; [|split]].
      * cbn [map repeat]. rewrite I1, H1. reflexivity.
      * exact I2.
      * exact I3.
      * rewrite I4. lia.
Qed.

(** X5: a burst on a fresh key.  When the clock does not run backwards
    and the cut-off computed from each reading of [n + k] successive
    checks (the float difference of the reading and [window_ms / 1000])
    lies before the first reading, a limit of [n] admits the first [n]
    checks, with [n - 1], ..., [0] remaining, and denies the [k] that
    follow; the record then holds [n] timestamps. *)
Theorem burst_admits_exactly_limit (n k : nat) (request : Request)
    (window_ms : Z) (prefix : string) (w : World) :
  let key := _get_key request prefix in
  let r := checks (n + k) request window_ms (Z.of_nat n) prefix w in
  requests_of w key = [] ->
  monotone_clock w ->
  (forall i, (i < reads w + 2 * (n + k))%nat ->
             (float_sub (clock w i) (window_seconds window_ms)
              < clock w (reads w))%Q) ->
  map verdict (fst r)
  = (countdown n (Z.of_nat n - 1) ++ repeat (false, 0) k)%list /\
  length (requests_of (snd r) key) = n.
Proof.
  intros key r Hfresh Hmono Hspan.
  destruct (checks_app n k request window_ms (Z.of_nat n) prefix w)
    as [Hf Hs].
  destruct (checks_admitted request window_ms (Z.of_nat n) prefix
              (clock w (reads w)) n w) as (Av & Ac & Ar & Al & Alo).
  { fold key. rewrite Hfresh. intros t []. }
  { intros i Hi. split; [apply Hmono; lia | apply Hspan; lia]. }
  { fold key. rewrite Hfresh. simpl. lia. }
  fold key in Av, Al, Alo. rewrite Hfresh in Av, Al. simpl in Av, Al.
  set (wn := snd (checks n request window_ms (Z.of_nat n) prefix w)) in *.
  destruct (checks_denied request window_ms (Z.of_nat n) prefix
              (clock w (reads w)) k wn) as (Dv & Dr & _ & _).
  { exact Alo. }
  { intros i Hi. rewrite Ac. apply Hspan. lia. }
  { fold key. rewrite Al. lia. }
  fold key in Dr.
  unfold r. rewrite Hf, Hs. fold wn. rewrite map_app, Av, Dv.
  split.
  - do 2 f_equal. lia.
  - rewrite Dr. exact Al.
Qed.

(** ** RateLimiter: the dictionary *)

Lemma requests_cleanup (key : string) (window_ms : Z) (w : World) :
  requests (_cleanup key window_ms w)
  = <[key := List.filter
               (fun t => Qgtb t (float_sub (clock w (reads w))
                                 (window_seconds window_ms)))
               (requests_of w key)]> (requests w).
Proof. reflexivity. Qed.

(** X6: a check creates the entry of its own key when it is not there
    (also when it denies), and removes no entry: the keys of the
    dictionary afterwards are the former keys and the key of the
    request. *)
Theorem check_keys_only_grow (request : Request)
    (window_ms max_requests : Z) (prefix : string) (w : World) :
  dom (requests (snd (check request window_ms max_requests prefix w)))
  = {[ _get_key request prefix ]} ∪ dom (requests w).
Proof.
  rewrite check_eq. cbv zeta.
  destruct (Z.leb max_requests _); cbn [snd set_requests requests].
  - rewrite requests_cleanup. rewrite dom_insert_L. reflexivity.
  - rewrite requests_cleanup. rewrite !dom_insert_L.
    cbn [time_time snd requests].
    now rewrite (assoc_L (∪)), (idemp_L (∪)).
Qed.

(** X7: the verdict of a check depends on the record of its own key and
    on the clock only: two worlds that agree on these give the same
    verdict, whatever they hold for other keys. *)
Theorem check_depends_on_own_record (request : Request)
    (window_ms max_requests : Z) (prefix : string) (w1 w2 : World) :
  clock w1 = clock w2 ->
  reads w1 = reads w2 ->
  requests w1 !! _get_key request prefix
  = requests w2 !! _get_key request prefix ->
  fst (check request window_ms max_requests prefix w1)
  = fst (check request window_ms max_requests prefix w2) /\
  requests_of (snd (check request window_ms max_requests prefix w1))
    (_get_key request prefix)
  = requests_of (snd (check request window_ms max_requests prefix w2))
      (_get_key request prefix).
Proof.
  intros Hc Hr Hk.
  assert (Hreq : requests_of w1 (_get_key request prefix)
                 = requests_of w2 (_get_key request prefix))
    by (unfold requests_of; now rewrite Hk).
  assert (Hkept : kept_of (_get_key request prefix) window_ms w1
                  = kept_of (_get_key request prefix) window_ms w2)
    by (unfold kept_of; now rewrite Hc, Hr, Hreq).
  destruct (check_cases request window_ms max_requests prefix w1)
    as [(A1 & A2 & A3) | (A1 & A2 & A3)];
    destruct (check_cases request window_ms max_requests prefix w2)
      as [(B1 & B2 & B3) | (B1 & B2 & B3)];
    rewrite Hkept in A1, A3; try rewrite Hkept in A2; try lia;
    rewrite A2, A3, B2, B3, Hc, Hr; split; reflexivity.
Qed.

(** ** The rate-limit dependency *)

Lemma check_rate_limit_eq (window_ms max_requests : Z) (prefix : string)
    (request : Request) (w : World) :
  let r := check request window_ms max_requests prefix w in
  let allowed := fst (fst (fst r)) in
  let remaining := snd (fst (fst r)) in
  let reset_at := snd (fst r) in
  let retry_after :=
    int_of (float_sub reset_at (clock (snd r) (reads (snd r)))) in
  check_rate_limit window_ms max_requests prefix request w
  = if allowed then
      (Return {[ "limit" := max_requests;
                 "remaining" := remaining;
                 "reset" := int_of reset_at ]},
       snd r)
    else
      (Raise (HTTPException HTTP_429_TOO_MANY_REQUESTS
                (JDict {[ "code" := JStr "AUTH_400";
                          "message" := JStr "Rate limit exceeded";
                          "retry_after" := JNum (inject_Z retry_after) ]})
                [ ("Retry-After", str_of_int retry_after);
                  ("X-RateLimit-Limit", str_of_int max_requests);
                  ("X-RateLimit-Remaining", "0");
                  ("X-RateLimit-Reset", str_of_int (int_of reset_at)) ]),
       snd (time_time (snd r))).
Proof.
  cbv zeta. unfold check_rate_limit.
  destruct (check request window_ms max_requests prefix w)
    as [[[allowed remaining] reset_at] w1].
  cbn [fst snd]. now destruct allowed.
Qed.

Lemma int_of_nonneg (q : Q) : (0 <= q)%Q -> 0 <= int_of q.
Proof.
  unfold Qle, int_of. simpl. rewrite Z.mul_1_r. intros H.
  apply Z.quot_pos; [exact H | reflexivity].
Qed.

(** X8: the dependency lets a request pass exactly when [check] admits
    it.  It then stores the limit, a remaining count between [0] and the
    limit, and the reset time; otherwise it raises the 429 error of code
    AUTH_400.  Beyond what [check] does it leaves the dictionary alone. *)
Theorem check_rate_limit_outcome (window_ms max_requests : Z)
    (prefix : string) (request : Request) (w : World) :
  let r := check request window_ms max_requests prefix w in
  let out := check_rate_limit window_ms max_requests prefix request w in
  succeeds (fst out) = fst (fst (fst r)) /\
  requests (snd out) = requests (snd r) /\
  (forall e, fst out = Raise e ->
             error_kind e = Some RATE_LIMITED /\
             exists d h, e = HTTPException 429 d h) /\
  (forall m, fst out = Return m ->
             m !! "limit" = Some max_requests /\
             m !! "reset" = Some (int_of (snd (fst r))) /\
             exists remaining,
               m !! "remaining" = Some remaining /\
               0 <= remaining < max_requests).
Proof.
  intros r out. unfold out.
  rewrite check_rate_limit_eq. cbv zeta. fold r.
  assert (Hb : 0 <= snd (fst (fst r)) /\
               (fst (fst (fst r)) = true ->
                snd (fst (fst r)) < max_requests)).
  { destruct (check_cases request window_ms max_requests prefix w)
      as [(Hc & Hf & _) | (Hc & Hf & _)]; fold r in Hf; rewrite Hf;
      cbn [fst snd]; split; try lia; discriminate. }
  destruct Hb as [H0 Hlt].
  destruct (fst (fst (fst r))) eqn:Ha; cbn [fst snd succeeds].
  - split; [reflexivity|]. split; [reflexivity|]. split.
    + intros e He. discriminate.
    + intros m [= <-]. split; [reflexivity|]. split; [reflexivity|].
      eexists. split; [reflexivity|]. split; [exact H0 | now apply Hlt].
  - split; [reflexivity|]. split; [reflexivity|]. split.
    + intros e [= <-]. split; [reflexivity|]. eexists. eexists. reflexivity.
    + intros m Hm. discriminate.
Qed.

Lemma _get_key_prefixes_differ (request : Request) (p1 p2 : string) :
  p1 <> p2 -> _get_key request p1 <> _get_key request p2.
Proof.
  intros Hne Heq. rewrite !_get_key_suffix in Heq.
  apply append_inv_tail in Heq. contradiction.
Qed.

Lemma check_rate_limit_other (window_ms max_requests : Z)
    (prefix key' : string) (request : Request) (w : World) :
  key' <> _get_key request prefix ->
  requests (snd (check_rate_limit window_ms max_requests prefix request w))
    !! key'
  = requests w !! key'.
Proof.
  intros H. rewrite check_rate_limit_eq. cbv zeta.
  destruct (fst (fst (fst (check request window_ms max_requests prefix w))));
    cbn [snd time_time requests]; now apply check_other.
Qed.

(** X10: the three limiters of the package keep separate budgets: for any
    request, a call of one of them leaves the records that the other two
    use for that request untouched. *)
Theorem preconfigured_limiters_independent (request : Request) (w : World) :
  let api := _get_key request "api" in
  let auth := _get_key request "auth" in
  let strict := _get_key request "strict" in
  (api <> auth /\ api <> strict /\ auth <> strict) /\
  (requests (snd (rate_limit_default request w)) !! auth
   = requests w !! auth /\
   requests (snd (rate_limit_default request w)) !! strict
   = requests w !! strict) /\
  (requests (snd (rate_limit_auth request w)) !! api = requests w !! api /\
   requests (snd (rate_limit_auth request w)) !! strict
   = requests w !! strict) /\
  (requests (snd (rate_limit_strict request w)) !! api = requests w !! api /\
   requests (snd (rate_limit_strict request w)) !! auth
   = requests w !! auth).
Proof.
  intros api auth strict.
  assert (H1 : api <> auth)
    by (apply _get_key_prefixes_differ; discriminate).
  assert (H2 : api <> strict)
    by (apply _get_key_prefixes_differ; discriminate).
  assert (H3 : auth <> strict)
    by (apply _get_key_prefixes_differ; discriminate).
  split; [repeat split; assumption|].
  unfold rate_limit_default, rate_limit_auth, rate_limit_strict.
  unfold api, auth, strict in *.
  repeat split; apply check_rate_limit_other;
    first [assumption | apply not_eq_sym; assumption].
Qed.

(** ** Rate-limit keys: which requests share a bucket *)

Lemma _get_key_user (request : Request) (prefix : string) :
  truthy (headers_get (headers request) "x-user-id") = true ->
  _get_key request prefix
  = prefix ++ ":user:"
    ++ default "" (headers_get (headers request) "x-user-id").
Proof. intros H. unfold _get_key. now rewrite H. Qed.

Lemma _get_key_ip (request : Request) (prefix : string) :
  truthy (headers_get (headers request) "x-user-id") = false ->
  exists ip, _get_key request prefix = prefix ++ ":ip:" ++ ip.
Proof. intros H. unfold _get_key. rewrite H. eexists. reflexivity. Qed.

(** X11: under one prefix a request identified by its user id and a
    request identified by an address never share a key, whatever the
    headers of the second say. *)
Theorem user_and_ip_keys_differ (r1 r2 : Request) (prefix : string) :
  truthy (headers_get (headers r1) "x-user-id") = true ->
  truthy (headers_get (headers r2) "x-user-id") = false ->
  _get_key r1 prefix <> _get_key r2 prefix.
Proof.
  intros H1 H2 Heq.
  rewrite (_get_key_user r1 prefix H1) in Heq.
  destruct (_get_key_ip r2 prefix H2) as [ip Hip]. rewrite Hip in Heq.
  apply append_inv_head in Heq. discriminate.
Qed.

(** X12: under one prefix two requests identified by their user ids get
    the same key exactly when the ids are the same, whatever their other
    headers and peers are. *)
Theorem user_keys_injective (r1 r2 : Request) (prefix : string) :
  truthy (headers_get (headers r1) "x-user-id") = true ->
  truthy (headers_get (headers r2) "x-user-id") = true ->
  (_get_key r1 prefix = _get_key r2 prefix <->
   headers_get (headers r1) "x-user-id"
   = headers_get (headers r2) "x-user-id").
Proof.
  intros H1 H2.
  rewrite (_get_key_user r1 prefix H1), (_get_key_user r2 prefix H2).
  apply truthy_true in H1. apply truthy_true in H2.
  destruct H1 as (a & -> & _). destruct H2 as (b & -> & _). simpl.
  split.
  - intros H. apply append_inv_head in H.
    apply (append_inv_head ":user:") in H. now subst.
  - intros [= ->]. reflexivity.
Qed.

Lemma lstrip_head (s : string) (c : ascii) :
  head_char (lstrip s) = Some c -> is_space c = false.
Proof.
  induction s as [|a s IH]; simpl; [discriminate|].
  destruct (is_space a) eqn:E; [exact IH|].
  simpl. now intros [= <-].
Qed.

Lemma rstrip_last (s : string) (c : ascii) :
  last_char (rstrip s) = Some c -> is_space c = false.
Proof.
  induction s as [|a s IH]; simpl; [discriminate|].
  destruct (rstrip s) as [|b r] eqn:E.
  - destruct (is_space a) eqn:Ea; simpl; [discriminate|].
    now intros [= <-].
  - simpl. simpl in IH. exact IH.
Qed.

Lemma rstrip_head (s : string) (c : ascii) :
  head_char (rstrip s) = Some c -> head_char s = Some c.
Proof.
  destruct s as [|a s]; simpl; [discriminate|].
  destruct (rstrip s); [destruct (is_space a)|]; simpl; try discriminate;
    now intros [= <-].
Qed.

Lemma lstrip_chars (s : string) (c : ascii) :
  In c (list_ascii_of_string (lstrip s)) -> In c (list_ascii_of_string s).
Proof.
  induction s as [|a s IH]; simpl; [tauto|].
  destruct (is_space a); simpl; [intros H; right; now apply IH | tauto].
Qed.

Lemma rstrip_chars (s : string) (c : ascii) :
  In c (list_ascii_of_string (rstrip s)) -> In c (list_ascii_of_string s).
Proof.
  induction s as [|a s IH]; simpl; [tauto|].
  destruct (rstrip s) as [|b r].
  - destruct (is_space a); simpl; tauto.
  - simpl in *. intros [H | H]; [now left | right; now apply IH].
Qed.

Lemma split_hd_no_sep (sep : ascii) (s : string) :
  ~ In sep (list_ascii_of_string (hd "" (split sep s))).
Proof.
  induction s as [|a s IH]; simpl; [tauto|].
  destruct (Ascii.eqb_spec a sep) as [-> | Hne]; simpl; [tauto|].
  destruct (split sep s) as [|x xs]; simpl in *.
  - intros [H | []]. congruence.
  - intros [H | H]; [congruence | now apply IH].
Qed.

Lemma rstrip_fixed (s : string) :
  (forall c, last_char s = Some c -> is_space c = false) -> rstrip s = s.
Proof.
  induction s as [|a s IH]; intros H; [reflexivity|].
  simpl. destruct s as [|b s'].
  - simpl. now rewrite (H a eq_refl).
  - rewrite IH by (intros c Hc; apply H; exact Hc). reflexivity.
Qed.

Lemma lstrip_fixed (s : string) :
  (forall c, head_char s = Some c -> is_space c = false) -> lstrip s = s.
Proof.
  destruct s as [|a s]; intros H; [reflexivity|].
  simpl. now rewrite (H a eq_refl).
Qed.

(** X13: the address in the key of a request identified through the
    "x-forwarded-for" header is one token: it holds no comma, it neither
    starts nor ends with a blank, and stripping it again changes
    nothing. *)
Theorem forwarded_address_shape (request : Request) (prefix forwarded : string) :
  truthy (headers_get (headers request) "x-user-id") = false ->
  headers_get (headers request) "x-forwarded-for" = Some forwarded ->
  forwarded <> "" ->
  exists ip,
    _get_key request prefix = prefix ++ ":ip:" ++ ip /\
    ~ In ","%char (list_ascii_of_string ip) /\
    (forall c, head_char ip = Some c -> is_space c = false) /\
    (forall c, last_char ip = Some c -> is_space c = false) /\
    strip ip = ip.
Proof.
  intros Hu Hf Hne.
  exists (strip (hd "" (split "," forwarded))).
  set (seg := hd "" (split "," forwarded)).
  assert (Hh : forall c, head_char (strip seg) = Some c -> is_space c = false).
  { intros c Hc. unfold strip in Hc. apply rstrip_head in Hc.
    now apply lstrip_head in Hc. }
  assert (Hl : forall c, last_char (strip seg) = Some c -> is_space c = false).
  { intros c Hc. unfold strip in Hc. now apply rstrip_last in Hc. }
  split; [|split; [|split; [|split]]].
  - unfold _get_key. rewrite Hu, Hf. simpl.
    apply truthy_str_true in Hne. now rewrite Hne.
  - intros Hin. unfold strip in Hin. apply rstrip_chars in Hin.
    apply lstrip_chars in Hin. exact (split_hd_no_sep _ _ Hin).
  - exact Hh.
  - exact Hl.
  - unfold strip at 1. rewrite (lstrip_fixed _ Hh). now apply rstrip_fixed.
Qed.

(** ** PermissionGuard: what the guards have in common *)

(** X14: every guard returns the very user it was given or raises a 403
    error, of kind PERMISSION_DENIED for the permission, role and
    platform-admin checks, TENANT_REQUIRED for the tenant check and
    EMAIL_UNVERIFIED for the e-mail check; no guard changes the user or
    raises anything else. *)
Theorem guards_return_user_or_403 (u : AuthUser) (p m : string)
    (ps : list string) :
  guard_outcome (require_permission p u) u PERMISSION_DENIED /\
  guard_outcome (require_any_permission ps u) u PERMISSION_DENIED /\
  guard_outcome (require_role m u) u PERMISSION_DENIED /\
  guard_outcome (require_tenant u) u TENANT_REQUIRED /\
  guard_outcome (require_verified_email u) u EMAIL_UNVERIFIED /\
  guard_outcome (require_platform_admin u) u PERMISSION_DENIED.
Proof.
  unfold guard_outcome.
  split; [|split; [|split; [|split; [|split]]]].
  - unfold require_permission.
    destruct (py_in "*" _); [now left|].
    destruct (py_in p _); simpl; [now left|].
    right. eexists. split; reflexivity.
  - unfold require_any_permission.
    destruct (py_in "*" _); [now left|].
    destruct (existsb _ ps); simpl; [now left|].
    right. eexists. split; reflexivity.
  - unfold require_role.
    destruct (tenant_role (claims u)) as [r|].
    + destruct (truthy_str r); simpl.
      * destruct (Z.ltb _ _); [|now left].
        right. eexists. split; reflexivity.
      * right. eexists. split; reflexivity.
    + right. eexists. split; reflexivity.
  - unfold require_tenant. destruct (truthy _); simpl; [now left|].
    right. eexists. split; reflexivity.
  - unfold require_verified_email.
    destruct (email_verified u); simpl; [now left|].
    right. eexists. split; reflexivity.
  - unfold require_platform_admin.
    destruct (is_platform_admin (claims u)); simpl; [now left|].
    right. eexists. split; reflexivity.
Qed.

Lemma role_level_range (r : string) : 0 <= role_level r <= 100.
Proof.
  destruct (String.eqb_spec r "owner") as [-> | H1]; [vm_compute; split; discriminate|].
  destruct (String.eqb_spec r "admin") as [-> | H2]; [vm_compute; split; discriminate|].
  destruct (String.eqb_spec r "developer") as [-> | H3]; [vm_compute; split; discriminate|].
  destruct (String.eqb_spec r "viewer") as [-> | H4]; [vm_compute; split; discriminate|].
  rewrite role_level_unknown by assumption. lia.
Qed.

(** X15: the role check follows the hierarchy: a user who passes
    [require_role m] passes [require_role m'] for every [m'] that ranks no
    higher than [m], and an owner passes every role check. *)
Theorem require_role_downward (u : AuthUser) (m m' : string) :
  (require_role m u = Return u ->
   role_level m' <= role_level m ->
   require_role m' u = Return u) /\
  (tenant_role (claims u) = Some "owner" -> require_role m u = Return u).
Proof.
  split.
  - rewrite !require_role_succeeds. intros [Ht Hl] Hle. split; [exact Ht | lia].
  - intros Ho. apply require_role_succeeds. rewrite Ho. split; [reflexivity|].
    simpl. destruct (role_level_range m) as [_ H].
    destruct role_levels as (-> & _). exact H.
Qed.

(** X16: a [min_role] that is not one of the four role names ranks [0]
    and is passed by every user who has a role, whatever that role is. *)
Theorem require_role_unknown_min_role (u : AuthUser) (m : string) :
  m <> "owner" -> m <> "admin" -> m <> "developer" -> m <> "viewer" ->
  truthy (tenant_role (claims u)) = true ->
  require_role m u = Return u.
Proof.
  intros H1 H2 H3 H4 Ht. apply require_role_succeeds.
  split; [exact Ht|].
  rewrite (role_level_unknown m H1 H2 H3 H4).
  apply truthy_true in Ht. destruct Ht as (r & -> & _). simpl.
  apply role_level_range.
Qed.

(** X17: a user whose role is not one of the four role names fails the
    role check for each of the four, with the "Insufficient role" error
    that names both roles. *)
Theorem require_role_unknown_user_role (u : AuthUser) (r m : string) :
  tenant_role (claims u) = Some r ->
  r <> "" ->
  r <> "owner" -> r <> "admin" -> r <> "developer" -> r <> "viewer" ->
  m = "owner" \/ m = "admin" \/ m = "developer" \/ m = "viewer" ->
  require_role m u
  = Raise (HTTPException HTTP_403_FORBIDDEN
             (JDict {[ "code" := JStr "AUTH_301";
                       "message" := JStr "Insufficient role";
                       "required_role" := JStr m;
                       "current_role" := JStr r ]}) []).
Proof.
  intros Hr Hne H1 H2 H3 H4 Hm. unfold require_role. rewrite Hr.
  apply truthy_str_true in Hne. rewrite Hne. simpl.
  rewrite (role_level_unknown r H1 H2 H3 H4).
  destruct Hm as [-> | [-> | [-> | ->]]]; reflexivity.
Qed.

Lemma succeeds_require_permission (p : string) (u : AuthUser) :
  succeeds (require_permission p u)
  = py_in "*" (permissions (claims u)) || py_in p (permissions (claims u)).
Proof.
  unfold require_permission.
  destruct (py_in "*" _); [reflexivity|].
  now destruct (py_in p _).
Qed.

Lemma succeeds_require_any_permission (ps : list string) (u : AuthUser) :
  succeeds (require_any_permission ps u)
  = py_in "*" (permissions (claims u))
    || existsb (fun p => py_in p (permissions (claims u))) ps.
Proof.
  unfold require_any_permission.
  destruct (py_in "*" _); [reflexivity|].
  now destruct (existsb _ ps).
Qed.

(** X18: [require_any_permission] in terms of [require_permission].
    Without the wildcard it passes exactly when [require_permission]
    passes for one of the listed permissions, so never for the empty
    list; for a list of one permission the two checks agree; and a list
    put together from two passes when one of the two does. *)
Theorem require_any_permission_is_disjunction (u : AuthUser)
    (ps qs : list string) (p : string) :
  succeeds (require_any_permission ps u)
  = py_in "*" (permissions (claims u))
    || existsb (fun q => succeeds (require_permission q u)) ps /\
  succeeds (require_any_permission [] u)
  = py_in "*" (permissions (claims u)) /\
  succeeds (require_any_permission [p] u)
  = succeeds (require_permission p u) /\
  succeeds (require_any_permission (ps ++ qs)%list u)
  = succeeds (require_any_permission ps u)
    || succeeds (require_any_permission qs u).
Proof.
  rewrite !succeeds_require_any_permission, succeeds_require_permission.
  destruct (py_in "*" (permissions (claims u))) eqn:Es; simpl.
  - repeat split.
  - split; [|split; [reflexivity|split]].
    + induction ps as [|q ps IH]; [reflexivity|].
      simpl. rewrite IH, succeeds_require_permission, Es. reflexivity.
    + now rewrite orb_false_r.
    + apply existsb_app.
Qed.

(** X19: granting more permissions never revokes access: when every
    permission of [l1] is also in [l2], each permission check that passes
    with [l1] passes with [l2]. *)
Theorem permission_checks_monotone (u : AuthUser) (l1 l2 ps : list string)
    (p : string) :
  (forall x, In x l1 -> In x l2) ->
  (succeeds (require_permission p (with_permissions l1 u)) = true ->
   succeeds (require_permission p (with_permissions l2 u)) = true) /\
  (succeeds (require_any_permission ps (with_permissions l1 u)) = true ->
   succeeds (require_any_permission ps (with_permissions l2 u)) = true).
Proof.
  intros Hsub.
  assert (Hin : forall x, py_in x l1 = true -> py_in x l2 = true)
    by (intros x; rewrite !py_in_In; apply Hsub).
  rewrite !succeeds_require_permission, !succeeds_require_any_permission.
  simpl. rewrite !orb_true_iff. split.
  - intros [H | H]; [left | right]; now apply Hin.
  - intros [H | H]; [left; now apply Hin | right].
    apply existsb_exists in H. destruct H as (q & Hq & Hq').
    apply existsb_exists. exists q. split; [exact Hq | now apply Hin].
Qed.

(** ** ClaimsExtractor: what is read from the payload *)

(** Lookups in a dictionary written out key by key. *)
Ltac map_lookup :=
  repeat first
    [ rewrite lookup_insert_eq
    | rewrite lookup_singleton_eq
    | rewrite lookup_insert_ne by discriminate
    | rewrite lookup_singleton_ne by discriminate ].

Lemma validate_optional_str_opt_json (o : option string) :
  validate_optional_str (opt_json o) = Some o.
Proof. now destruct o. Qed.

(** X20: extraction loses nothing and mixes nothing up: from the payload
    that states the fields of a user under the claim names of the token
    ("sub", "email", "email_verified" and the six entries of "olympus"),
    the extraction returns that user. *)
Theorem user_of_payload_of_user (u : AuthUser) :
  user_of_payload (payload_of_user u) = Return u.
Proof.
  destruct u as [i e ev [tid trole tslug perms tier adm]].
  unfold user_of_payload, payload_of_user, dict_get.
  cbn [id_ email email_verified claims tenant_id tenant_role tenant_slug
       permissions plan_tier is_platform_admin].
  map_lookup. cbv beta iota delta [default from_option id].
  map_lookup. cbv beta iota delta [default from_option id].
  unfold make_OlympusClaims.
  rewrite !validate_optional_str_opt_json.
  cbn [validate_list_str validate_bool]. rewrite validate_all_str_map.
  reflexivity.
Qed.

(** X21: the extraction reads the claims "sub", "email", "email_verified"
    and "olympus" and nothing else: setting or removing any other claim
    of the payload ("exp", "aud", "role", ...) leaves its result as it
    is. *)
Theorem user_of_payload_other_claims (payload : gmap string json)
    (k : string) (v : json) :
  k <> "sub" -> k <> "email" -> k <> "email_verified" -> k <> "olympus" ->
  user_of_payload (<[k := v]> payload) = user_of_payload payload /\
  user_of_payload (delete k payload) = user_of_payload payload.
Proof.
  intros H1 H2 H3 H4. unfold user_of_payload, dict_get.
  rewrite !lookup_insert_ne by congruence.
  rewrite !lookup_delete_ne by congruence.
  split; reflexivity.
Qed.

(** X22: a namespace claim that is present but not an object (null, a
    string, a list, ...) makes the extraction end with an
    [AttributeError], whatever else the payload holds; the error passes
    through [get_current_user] and through [get_optional_user]. *)
Theorem namespace_not_an_object
    (secret : string)
    (jwt_decode : string -> string -> list string -> string -> jwt_outcome)
    (cred : HTTPAuthorizationCredentials)
    (payload : gmap string json) (v : json) :
  decode_jwt secret jwt_decode (credentials cred) = Return payload ->
  payload !! "olympus" = Some v ->
  (forall d, v <> JDict d) ->
  user_of_payload payload
  = Raise (AttributeError "object has no attribute 'get'") /\
  get_current_user secret jwt_decode cred
  = Raise (AttributeError "object has no attribute 'get'") /\
  get_optional_user secret jwt_decode (Some cred)
  = Raise (AttributeError "object has no attribute 'get'").
Proof.
  intros Hdec Hns Hv.
  assert (Hu : user_of_payload payload
               = Raise (AttributeError "object has no attribute 'get'")).
  { unfold user_of_payload, dict_get. rewrite Hns. simpl.
    destruct v; try reflexivity. exfalso. now apply (Hv d). }
  split; [exact Hu|].
  assert (Hg : get_current_user secret jwt_decode cred
               = Raise (AttributeError "object has no attribute 'get'"))
    by (rewrite (get_current_user_decoded _ _ _ _ Hdec); exact Hu).
  split; [exact Hg|]. simpl. now rewrite Hg.
Qed.

Lemma user_of_payload_raises (payload : gmap string json) (e : exn) :
  user_of_payload payload = Raise e -> is_HTTPException e = false.
Proof.
  unfold user_of_payload.
  destruct (dict_get payload "olympus" (JDict ∅));
    try (intros [= <-]; reflexivity).
  unfold make_OlympusClaims, make_AuthUser.
  repeat match goal with
         | |- context [match ?x with _ => _ end] => destruct x; simpl
         end;
    intros [= <-]; reflexivity.
Qed.

(** X23: the errors of [get_current_user].  An [HTTPException] it raises
    has status 500 when no secret is configured and 401 when the library
    rejects the token, never 403; every other exception is one of the
    library that [decode_jwt] does not catch (the refusal of the key) or
    comes from the extraction of a payload that the verifier accepted.  Without secret the library is not consulted: the
    outcome is the same for every token and every library. *)
Theorem get_current_user_errors
    (secret : string)
    (jwt_decode : string -> string -> list string -> string -> jwt_outcome)
    (cred : HTTPAuthorizationCredentials) (e : exn) :
  (get_current_user secret jwt_decode cred = Raise e ->
   (secret = "" /\ exists d, e = HTTPException 500 d []) \/
   (secret <> "" /\
    (jwt_decode (credentials cred) secret ["HS256"] "authenticated"
     = Raises ExpiredSignatureError \/
     exists msg,
       jwt_decode (credentials cred) secret ["HS256"] "authenticated"
       = Raises (InvalidTokenError msg)) /\
    exists d, e = HTTPException 401 d []) \/
   (secret <> "" /\
    exists cls msg,
      jwt_decode (credentials cred) secret ["HS256"] "authenticated"
      = Raises (OtherError cls msg) /\
      e = LibraryError cls msg) \/
   (secret <> "" /\ is_HTTPException e = false /\
    exists payload,
      jwt_decode (credentials cred) secret ["HS256"] "authenticated"
      = Decoded payload /\
      user_of_payload payload = Raise e)) /\
  (forall jwt_decode' cred',
     get_current_user "" jwt_decode cred
     = get_current_user "" jwt_decode' cred').
Proof.
  split; [|reflexivity].
  unfold get_current_user.
  destruct (String.eqb_spec secret "") as [-> | Hs].
  - simpl. intros [= <-]. left. split; [reflexivity|]. eexists. reflexivity.
  - rewrite (decode_jwt_with_secret _ _ _ Hs).
    destruct (jwt_decode (credentials cred) secret ["HS256"] "authenticated")
      as [payload | [ | msg | cls msg]] eqn:E; simpl; intros Hu.
    + right. right. right. split; [exact Hs|].
      split; [exact (user_of_payload_raises _ _ Hu)|].
      exists payload. split; [reflexivity | exact Hu].
    + injection Hu as <-. right. left. split; [exact Hs|].
      split; [now left | eexists; reflexivity].
    + injection Hu as <-. right. left. split; [exact Hs|].
      split; [right; now exists msg | eexists; reflexivity].
    + injection Hu as <-. right. right. left. split; [exact Hs|].
      exists cls, msg. split; reflexivity.
Qed.

(** X24: what [get_optional_user] returns.  It never raises an
    [HTTPException]; it returns a user only when [get_current_user]
    returns that user for the credentials, and [None] only when there are
    no credentials or [get_current_user] ends with an [HTTPException]. *)
Theorem get_optional_user_results
    (secret : string)
    (jwt_decode : string -> string -> list string -> string -> jwt_outcome)
    (cred : option HTTPAuthorizationCredentials) :
  (forall e, get_optional_user secret jwt_decode cred = Raise e ->
             is_HTTPException e = false) /\
  (forall u,
     get_optional_user secret jwt_decode cred = Return (Some u) <->
     exists c, cred = Some c /\
               get_current_user secret jwt_decode c = Return u) /\
  (get_optional_user secret jwt_decode cred = Return None <->
   cred = None \/
   exists c e, cred = Some c /\
               get_current_user secret jwt_decode c = Raise e /\
               is_HTTPException e = true).
Proof.
  destruct cred as [c|]; simpl.
  - destruct (get_current_user secret jwt_decode c) as [u | e] eqn:E.
    + split; [discriminate|]. split.
      * intros u'. split.
        -- intros [= <-]. exists c. split; [reflexivity | exact E].
        -- intros (c' & [= <-] & H). congruence.
      * split; [discriminate|].
        intros [H | (c' & e & [= <-] & H & _)]; congruence.
    + destruct (is_HTTPException e) eqn:Eh.
      * split; [discriminate|]. split.
        -- intros u. split; [discriminate|].
           intros (c' & [= <-] & H). congruence.
        -- split; [|reflexivity].
           intros _. right. exists c, e. repeat split; assumption.
      * split; [intros e' [= <-]; exact Eh|]. split.
        -- intros u. split; [discriminate|].
           intros (c' & [= <-] & H). congruence.
        -- split; [discriminate|].
           intros [H | (c' & e' & [= <-] & H & Hh)]; congruence.
  - split; [discriminate|]. split.
    + intros u. split; [discriminate | intros (c & H & _); discriminate].
    + split; [now left | reflexivity].
Qed.

(** ** RateLimiter: admission in terms of the history *)

Lemma younger_app (c : Q) (l1 l2 : list Q) :
  younger c (l1 ++ l2)%list = (younger c l1 ++ younger c l2)%list.
Proof. apply List.filter_app. Qed.

Lemma younger_younger (c' c : Q) (l : list Q) :
  (c' <= c)%Q -> younger c (younger c' l) = younger c l.
Proof.
  intros Hc. induction l as [|x l IH]; [reflexivity|].
  unfold younger in *. simpl.
  destruct (Qgtb x c') eqn:E'; simpl; rewrite IH; [reflexivity|].
  destruct (Qgtb x c) eqn:E; [|reflexivity].
  apply Qgtb_le in E'. apply Qgtb_lt in E. exfalso. clear -Hc E' E. lra.
Qed.

Lemma check_record (request : Request) (window_ms max_requests : Z)
    (prefix : string) (w : World) :
  let key := _get_key request prefix in
  let r := check request window_ms max_requests prefix w in
  requests_of (snd r) key
  = (younger (float_sub (clock w (S (reads w))) (window_seconds window_ms))
       (requests_of w key)
     ++ (if fst (fst (fst r)) then [clock w (reads w)] else []))%list /\
  (fst (fst (fst r)) = true <->
   Z.of_nat
     (length (younger (float_sub (clock w (S (reads w))) (window_seconds window_ms))
                (requests_of w key)))
   < max_requests).
Proof.
  intros key r.
  destruct (check_cases request window_ms max_requests prefix w)
    as [(Hc & Hf & Hr) | (Hc & Hf & Hr)];
    fold key in Hc, Hr; fold r in Hf, Hr; unfold kept_of in Hc, Hr;
    fold (younger (float_sub (clock w (S (reads w))) (window_seconds window_ms))
            (requests_of w key)) in Hc, Hr;
    rewrite Hf, Hr; cbn [fst].
  - split; [now rewrite app_nil_r|]. split; [discriminate | lia].
  - split; [reflexivity|]. split; [intros _; lia | reflexivity].
Qed.

Lemma checks_clock_reads (n : nat) (request : Request)
    (window_ms max_requests : Z) (prefix : string) (w : World) :
  clock (snd (checks n request window_ms max_requests prefix w)) = clock w /\
  reads (snd (checks n request window_ms max_requests prefix w))
  = (reads w + 2 * n)%nat.
Proof.
  revert w. induction n as [|n IH]; intros w.
  - simpl. split; [reflexivity | lia].
  - destruct (checks_S n request window_ms max_requests prefix w) as [_ Hs].
    rewrite Hs.
    destruct (IH (snd (check request window_ms max_requests prefix w)))
      as [I1 I2].
    destruct (check_unfold request window_ms max_requests prefix w)
      as (Hc & Hr & _).
    rewrite I1, I2, Hc, Hr. split; [reflexivity | lia].
Qed.

(** After [n] checks the record holds, as far as a later cut-off can
    tell, the former record and the admitted timestamps. *)
Lemma record_is_history (request : Request) (window_ms max_requests : Z)
    (prefix : string) (c : Q) (n : nat) :
  forall w : World,
    let key := _get_key request prefix in
    monotone_clock w ->
    fl_monotone ->
    (float_sub (clock w (reads w + 2 * n)) (window_seconds window_ms)
     <= c)%Q ->
    younger c
      (requests_of (snd (checks n request window_ms max_requests prefix w))
         key)
    = younger c
        (requests_of w key
         ++ admitted n request window_ms max_requests prefix w)%list.
Proof.
  induction n as [|n IH]; intros w key Hmono Hfl Hc.
  - simpl. now rewrite app_nil_r.
  - destruct (checks_S n request window_ms max_requests prefix w) as [_ Hs].
    rewrite Hs. cbn [admitted].
    destruct (check_unfold request window_ms max_requests prefix w)
      as (Hck & Hrd & _).
    destruct (check_record request window_ms max_requests prefix w)
      as [Hrec _].
    fold key in Hrec.
    set (w1 := snd (check request window_ms max_requests prefix w)) in *.
    specialize (IH w1). cbv zeta in IH. fold key in IH.
    rewrite IH.
    + rewrite Hrec. rewrite !younger_app. rewrite younger_younger.
      * now rewrite app_assoc.
      * assert (H := Hmono (S (reads w)) (reads w + 2 * S n)%nat
                       ltac:(lia)).
        apply Qle_trans with (2 := Hc). unfold float_sub. apply Hfl.
        clear -H. lra.
    + unfold monotone_clock. rewrite Hck. exact Hmono.
    + exact Hfl.
    + rewrite Hck, Hrd.
      replace (S (S (reads w)) + 2 * n)%nat with (reads w + 2 * S n)%nat
        by lia.
      exact Hc.
Qed.

(** X25: the sliding window, in terms of what was admitted.  On a key
    that starts without record, with a clock that does not run backwards
    and a rounding that keeps the order, a check that follows [n] earlier
    ones is admitted exactly when fewer than [max_requests] of the
    requests admitted among them are younger than its cut-off, the float
    difference of the clock reading of its [_cleanup] and
    [window_ms / 1000]. *)
Theorem admission_follows_history (n : nat) (request : Request)
    (window_ms max_requests : Z) (prefix : string) (w : World) :
  let key := _get_key request prefix in
  let wn := snd (checks n request window_ms max_requests prefix w) in
  let cutoff :=
    float_sub (clock w (S (reads w + 2 * n))) (window_seconds window_ms) in
  requests_of w key = [] ->
  monotone_clock w ->
  fl_monotone ->
  (fst (fst (fst (check request window_ms max_requests prefix wn))) = true
   <->
   Z.of_nat
     (length (younger cutoff
                (admitted n request window_ms max_requests prefix w)))
   < max_requests).
Proof.
  intros key wn cutoff Hfresh Hmono Hfl.
  destruct (check_record request window_ms max_requests prefix wn)
    as [_ Hiff].
  destruct (checks_clock_reads n request window_ms max_requests prefix w)
    as [Hc Hr].
  fold wn in Hc, Hr. rewrite Hc, Hr in Hiff. fold cutoff in Hiff.
  rewrite Hiff. unfold wn.
  rewrite (record_is_history request window_ms max_requests prefix cutoff n w
             Hmono Hfl).
  - fold key. rewrite Hfresh. reflexivity.
  - assert (H := Hmono (reads w + 2 * n)%nat (S (reads w + 2 * n))
                   ltac:(lia)).
    unfold cutoff, float_sub. apply Hfl. clear -H. lra.
Qed.

(** ** Rate-limit keys: a blank forwarded address *)

Lemma lstrip_blank (s : string) :
  (forall c, In c (list_ascii_of_string s) -> is_space c = true) ->
  lstrip s = "".
Proof.
  induction s as [|a s IH]; intros H; [reflexivity|].
  simpl. rewrite (H a) by (left; reflexivity).
  apply IH. intros c Hc. apply H. now right.
Qed.

(** X26: a forwarded header that is not empty decides the address even
    when its left-most entry is blank: the key then ends with the empty
    address, the connected peer is not consulted, and all such requests
    share one bucket under the prefix. *)
Theorem blank_forwarded_address (request : Request)
    (prefix forwarded : string) :
  truthy (headers_get (headers request) "x-user-id") = false ->
  headers_get (headers request) "x-forwarded-for" = Some forwarded ->
  forwarded <> "" ->
  (forall c, In c (list_ascii_of_string (hd "" (split "," forwarded))) ->
             is_space c = true) ->
  _get_key request prefix = prefix ++ ":ip:".
Proof.
  intros Hu Hf Hne Hblank. unfold _get_key. rewrite Hu, Hf. simpl.
  apply truthy_str_true in Hne. rewrite Hne.
  unfold strip. now rewrite (lstrip_blank _ Hblank).
Qed.

(** X9: the retry delay of a denied request.  It is the whole part of
    the float difference between the reset time and the clock reading
    that the dependency takes after the check; when the clock has not
    gone backwards since the check read it, the delay is at most every
    whole number that bounds the difference taken at the reading of the
    check itself, and it is not negative as long as the reset time has
    not passed. *)
Theorem retry_after_bounds (window_ms max_requests : Z)
    (prefix : string) (request : Request) (w : World) :
  let now := clock w (reads w) in
  let later := clock w (S (S (reads w))) in
  let reset_at := float_add now (window_seconds window_ms) in
  let retry_after := int_of (float_sub reset_at later) in
  fst (fst (fst (check request window_ms max_requests prefix w))) = false ->
  fl_monotone ->
  fst (check_rate_limit window_ms max_requests prefix request w)
  = Raise (HTTPException HTTP_429_TOO_MANY_REQUESTS
             (JDict {[ "code" := JStr "AUTH_400";
                       "message" := JStr "Rate limit exceeded";
                       "retry_after" := JNum (inject_Z retry_after) ]})
             [ ("Retry-After", str_of_int retry_after);
               ("X-RateLimit-Limit", str_of_int max_requests);
               ("X-RateLimit-Remaining", "0");
               ("X-RateLimit-Reset", str_of_int (int_of reset_at)) ]) /\
  ((now <= later)%Q ->
   forall n, (float_sub reset_at now <= inject_Z n)%Q -> retry_after <= n) /\
  ((fl 0 == 0)%Q -> (later <= reset_at)%Q -> 0 <= retry_after).
Proof.
  intros now later reset_at retry_after Hdenied Hfl.
  rewrite check_rate_limit_eq. cbv zeta. rewrite Hdenied. cbn [fst].
  destruct (check_unfold request window_ms max_requests prefix w)
    as (Hc & Hr & _ & _).
  assert (Hreset : snd (fst (check request window_ms max_requests prefix w))
                   = reset_at).
  { destruct (check_cases request window_ms max_requests prefix w)
      as [(_ & Hf & _) | (_ & Hf & _)]; now rewrite Hf. }
  rewrite Hc, Hr, Hreset. fold later. fold retry_after.
  split; [reflexivity|]. split.
  - intros Hmono n Hn. apply int_of_le.
    apply Qle_trans with (2 := Hn). unfold float_sub. apply Hfl.
    clear -Hmono. lra.
  - intros H0 Hbefore. apply int_of_nonneg. rewrite <- H0.
    unfold float_sub. apply Hfl. clear -Hbefore. lra.
Qed.

(** ** RateLimiter: five admitted requests and a sixth *)

Lemma fl_respects_Qeq (x y : Q) :
  fl_monotone -> (x == y)%Q -> (fl x == fl y)%Q.
Proof.
  intros Hfl E. apply Qle_antisym; apply Hfl; rewrite E; apply Qle_refl.
Qed.

Lemma window_60000 :
  fl_monotone -> fl_exact_int -> (window_seconds 60000 == 60)%Q.
Proof.
  intros Hfl Hint. unfold window_seconds, float_div.
  rewrite (fl_respects_Qeq (inject_Z 60000 / 1000) (inject_Z 60) Hfl)
    by reflexivity.
  apply (Hint 60). split; discriminate.
Qed.

Lemma int_of_lt (q : Q) (n : Z) :
  0 <= n -> (q < inject_Z (n + 1))%Q -> int_of q <= n.
Proof.
  unfold Qlt, int_of. simpl. rewrite Z.mul_1_r. intros Hn H.
  destruct (Z.lt_ge_cases (Qnum q) 0) as [Hneg | Hpos].
  - apply Z.le_trans with 0; [|exact Hn].
    apply Z.quot_le_upper_bound; [reflexivity | lia].
  - rewrite Z.quot_div_nonneg by lia.
    apply Z.lt_succ_r. apply Z.div_lt_upper_bound; lia.
Qed.

(** The retry delay of a request denied at [now], read off at [later],
    for a window of 60 seconds. *)
Lemma retry_after_60 (now later : Q) :
  fl_monotone -> fl_exact_int -> fl_accurate ->
  (0 <= now)%Q -> (now <= later)%Q -> (now <= 8589934592)%Q ->
  int_of (float_sub (float_add now (window_seconds 60000)) later) <= 60.
Proof.
  intros Hfl Hint Hacc H0 Hl Hb.
  assert (Hw := window_60000 Hfl Hint).
  assert (H60 : (fl 60 == 60)%Q) by (apply (Hint 60); split; discriminate).
  unfold float_sub, float_add.
  set (x := (now + window_seconds 60000)%Q).
  assert (Hx : (fl x <= x * (1 + (1 # 9007199254740992)))%Q).
  { apply (Hacc x); unfold x.
    - clear -H0 Hw. lra.
    - change (inject_Z (2 ^ 64)) with 18446744073709551616%Q.
      clear -Hb Hw. lra. }
  set (y := (fl x - later)%Q).
  assert (Hy : (y < 61 - (1 # 2))%Q).
  { unfold y. revert Hx. unfold x. generalize (fl (now + window_seconds 60000)).
    intros f Hx. clear -Hx Hl Hb H0 Hw. lra. }
  destruct (Qlt_le_dec 60 y) as [Hbig | Hsmall].
  - apply int_of_lt; [discriminate|].
    assert (Hfy : (fl y <= y * (1 + (1 # 9007199254740992)))%Q).
    { apply (Hacc y).
      - clear -Hbig. lra.
      - change (inject_Z (2 ^ 64)) with 18446744073709551616%Q.
        clear -Hy. lra. }
    change (inject_Z (60 + 1)) with 61%Q. clear -Hfy Hy Hbig. lra.
  - apply int_of_le. apply Hfl in Hsmall. rewrite H60 in Hsmall.
    exact Hsmall.
Qed.

(** Five checks on a fresh key and a sixth one whose cut-off still lies
    before the first of them. *)
Lemma six_checks (request : Request) (prefix : string) (w : World) :
  let key := _get_key request prefix in
  requests w !! key = None ->
  monotone_clock w ->
  fl_monotone -> fl_exact_int -> fl_accurate ->
  (0 <= clock w (reads w))%Q ->
  (clock w (reads w + 12) <= 8589934592)%Q ->
  (float_sub (clock w (reads w + 11)) (window_seconds 60000)
   < clock w (reads w))%Q ->
  let r5 := checks 5 request 60000 5 prefix w in
  map verdict (fst r5)
  = [(true, 4); (true, 3); (true, 2); (true, 1); (true, 0)] /\
  verdict (fst (check request 60000 5 prefix (snd r5))) = (false, 0) /\
  requests_of (snd (check request 60000 5 prefix (snd r5))) key
  = requests_of (snd r5) key /\
  exists retry_after : Z,
    fst (check_rate_limit 60000 5 prefix request (snd r5))
    = Raise (HTTPException HTTP_429_TOO_MANY_REQUESTS
               (JDict {[ "code" := JStr "AUTH_400";
                         "message" := JStr "Rate limit exceeded";
                         "retry_after" := JNum (inject_Z retry_after) ]})
               [ ("Retry-After", str_of_int retry_after);
                 ("X-RateLimit-Limit", str_of_int 5);
                 ("X-RateLimit-Remaining", "0");
                 ("X-RateLimit-Reset",
                  str_of_int
                    (int_of (float_add (clock w (reads w + 10))
                               (window_seconds 60000)))) ]) /\
    retry_after <= 60.
Proof.
  intros key Hfresh Hmono Hfl Hint Hacc H0 Hb Hlast r5.
  assert (Hempty : requests_of w key = [])
    by (unfold requests_of; now rewrite Hfresh).
  assert (Hcut : forall i, (i <= reads w + 11)%nat ->
                   (float_sub (clock w i) (window_seconds 60000)
                    < clock w (reads w))%Q).
  { intros i Hi. apply Qle_lt_trans with (2 := Hlast).
    unfold float_sub. apply Hfl.
    assert (H := Hmono i (reads w + 11)%nat Hi). clear -H. lra. }
  destruct (checks_admitted request 60000 5 prefix (clock w (reads w)) 5 w)
    as (Hv & Hc & Hr & Hlen & Hlo).
  { fold key. rewrite Hempty. intros t []. }
  { intros i Hi. split; [apply Hmono; lia | apply Hcut; lia]. }
  { fold key. rewrite Hempty. simpl. lia. }
  fold key in Hv, Hlen, Hlo. fold r5 in Hv, Hc, Hr, Hlen, Hlo.
  rewrite Hempty in Hv, Hlen. simpl in Hlen.
  split; [exact Hv|].
  destruct (check_nothing_pruned request 60000 5 prefix (snd r5))
    as (Hc6 & Hr6 & Hdeny & _).
  { fold key. intros t Ht. apply Hlo in Ht. rewrite Hc, Hr.
    assert (H := Hcut (S (reads w + 2 * 5)) ltac:(lia)).
    clear -H Ht. lra. }
  fold key in Hdeny. rewrite Hlen in Hdeny.
  destruct (Hdeny ltac:(simpl; lia)) as [H6 Hsame].
  rewrite Hc, Hr in H6.
  replace (reads w + 2 * 5)%nat with (reads w + 10)%nat in H6 by lia.
  split; [unfold verdict; now rewrite H6|].
  split; [exact Hsame|].
  rewrite check_rate_limit_eq. cbv zeta. rewrite H6. cbn [fst snd].
  eexists. split; [reflexivity|].
  rewrite Hc6, Hr6, Hc, Hr.
  apply retry_after_60; try assumption.
  - apply Qle_trans with (1 := H0). apply Hmono. lia.
  - apply Hmono. lia.
  - apply Qle_trans with (2 := Hb). apply Hmono. lia.
Qed.

(** C3, as the code has it: a check drops the recorded timestamps of its
    key that are not younger than the cut-off, the cut-off being the float
    difference of the clock reading of [_cleanup] (taken right after the
    reading [now]) and [window_ms / 1000]: a timestamp exactly at the
    cut-off is dropped too.  With at least [max_requests] timestamps left
    it returns [(False, 0, now + window)] and the record is the pruned
    list, without a new entry; otherwise it returns
    [(True, max(0, max_requests - count - 1), now + window)] and the
    record is the pruned list followed by [now].  With a window of 60000
    ms and at most 5 requests, five checks in a row on a fresh key are
    admitted with 4, 3, 2, 1 and 0 requests remaining, and a sixth check
    whose cut-off still lies before the first of them is denied with 0
    remaining, records nothing, and is answered with a retry delay of at
    most 60 seconds (clock between 0 and 2^33 seconds, not running
    backwards). *)
Theorem check_sliding_window (request : Request) (window_ms max_requests : Z)
    (prefix : string) (w : World) :
  let key := _get_key request prefix in
  let now := clock w (reads w) in
  let window := window_seconds window_ms in
  let cutoff := float_sub (clock w (S (reads w))) window in
  let kept := List.filter (fun t => Qgtb t cutoff) (requests_of w key) in
  let count := Z.of_nat (length kept) in
  let r := check request window_ms max_requests prefix w in
  (forall t, In t kept <-> In t (requests_of w key) /\ (cutoff < t)%Q) /\
  (max_requests <= count ->
   fst r = (false, 0, float_add now window) /\
   requests_of (snd r) key = kept) /\
  (count < max_requests ->
   fst r = (true, Z.max 0 (max_requests - count - 1), float_add now window) /\
   requests_of (snd r) key = (kept ++ [now])%list) /\
  (requests w !! key = None ->
   monotone_clock w ->
   fl_monotone -> fl_exact_int -> fl_accurate ->
   (0 <= clock w (reads w))%Q ->
   (clock w (reads w + 12) <= 8589934592)%Q ->
   (float_sub (clock w (reads w + 11)) (window_seconds 60000)
    < clock w (reads w))%Q ->
   let r5 := checks 5 request 60000 5 prefix w in
   map verdict (fst r5)
   = [(true, 4); (true, 3); (true, 2); (true, 1); (true, 0)] /\
   verdict (fst (check request 60000 5 prefix (snd r5))) = (false, 0) /\
   requests_of (snd (check request 60000 5 prefix (snd r5))) key
   = requests_of (snd r5) key /\
   exists retry_after : Z,
     fst (check_rate_limit 60000 5 prefix request (snd r5))
     = Raise (HTTPException HTTP_429_TOO_MANY_REQUESTS
                (JDict {[ "code" := JStr "AUTH_400";
                          "message" := JStr "Rate limit exceeded";
                          "retry_after" := JNum (inject_Z retry_after) ]})
                [ ("Retry-After", str_of_int retry_after);
                  ("X-RateLimit-Limit", str_of_int 5);
                  ("X-RateLimit-Remaining", "0");
                  ("X-RateLimit-Reset",
                   str_of_int
                     (int_of (float_add (clock w (reads w + 10))
                                (window_seconds 60000)))) ]) /\
     retry_after <= 60).
Proof.
  intros key now window cutoff kept count r.
  destruct (check_unfold request window_ms max_requests prefix w)
    as (_ & _ & Hdeny & Hadmit).
  split; [|split; [|split]].
  - intros t. unfold kept. rewrite List.filter_In, Qgtb_lt. reflexivity.
  - exact Hdeny.
  - exact Hadmit.
  - apply six_checks.
Qed.

End Rounded.

(** * Instances

    The theorems that have hypotheses, at concrete inputs.  The limiter
    runs with [exact_rounding]: the sample clocks and windows are whole
    numbers of seconds, on which float arithmetic is exact. *)

#[local] Existing Instance exact_rounding.

Lemma exact_rounding_laws :
  @fl_monotone exact_rounding /\ @fl_exact_int exact_rounding /\
  @fl_accurate exact_rounding.
Proof.
  split; [|split].
  - intros x y H. exact H.
  - intros n _. simpl. reflexivity.
  - intros x H1 _. simpl.
    assert (E : (0 < 1 / inject_Z (2 ^ 53))%Q) by reflexivity.
    revert E. generalize (1 / inject_Z (2 ^ 53))%Q. intros u Hu.
    assert (H : (0 <= x * u)%Q) by (apply Qmult_le_0_compat; lra).
    lra.
Qed.

(** A user who holds only the wildcard: every permission check passes,
    the role check does not. *)
Lemma wildcard_grants_permissions_only_witness :
  let u := with_permissions ["*"] (tenant_user None None) in
  In "*" (permissions (claims u)) /\
  require_permission "billing:write" u = Return u /\
  require_any_permission [] u = Return u /\
  raised (require_role "viewer" u)
  = raised (require_role "viewer" (tenant_user None None)).
Proof.
  intros u.
  assert (H : In "*" (permissions (claims u))) by (simpl; left; reflexivity).
  split; [exact H|].
  destruct (wildcard_grants_permissions_only u H) as (Hp & Ha & Hr & _).
  split; [apply Hp|]. split; [apply Ha|].
  exact (Hr [] "viewer").
Defined.

Lemma require_role_iff_role_and_rank_witness :
  let u := tenant_user (Some "t1") (Some "owner") in
  require_role "admin" u = Return u /\
  (require_role "developer" u = Return u <->
   role_level "developer" <= rank (tenant_role (claims u))).
Proof.
  intros u.
  destruct (require_role_iff_role_and_rank "developer" u)
    as (_ & Hpos & _ & _ & _ & _ & Hadm & _).
  split.
  - apply (Hadm "owner"); [reflexivity | left; reflexivity].
  - apply Hpos. vm_compute. reflexivity.
Defined.

Lemma require_tenant_iff_truthy_witness :
  require_tenant (tenant_user (Some "t1") None)
  = Return (tenant_user (Some "t1") None) /\
  (error_kind <$> raised (require_tenant (tenant_user None None)))
  = Some (Some TENANT_REQUIRED).
Proof.
  split.
  - apply (require_tenant_iff_truthy (tenant_user (Some "t1") None)).
    split; discriminate.
  - apply (require_tenant_iff_truthy (tenant_user None None)).
    left. reflexivity.
Defined.

Lemma get_current_user_defaults_witness :
  exists u,
    get_current_user "s3cret" (jwt_decodes_to payload_verified_email)
      (bearer "t") = Return u /\
    claims u = OlympusClaims_default /\
    user_of_payload (delete "sub" payload_verified_email)
    = Return (with_id "" u).
Proof.
  destruct (get_current_user_defaults "s3cret"
              (jwt_decodes_to payload_verified_email) (bearer "t")
              payload_verified_email eq_refl) as [H1 H2].
  destruct H1 as (u & Hu & Hc & _).
  - reflexivity.
  - right. exists "u1". reflexivity.
  - right. exists "u1@example.com". reflexivity.
  - right. exists true. reflexivity.
  - exists u. split; [exact Hu|]. split; [exact Hc|].
    apply H2. rewrite <- Hu. reflexivity.
Defined.

Lemma permission_checks_depend_on_elements_witness :
  raised (require_permission "write"
            (user_with_permissions ["read"; "write"; "read"]))
  = raised (require_permission "write"
              (user_with_permissions ["write"; "read"])).
Proof.
  apply (proj1 (permission_checks_depend_on_elements
                  (user_with_permissions ["read"; "write"; "read"])
                  (user_with_permissions ["write"; "read"])
                  same_elements_read_write)).
Defined.

Lemma _get_key_derivation_witness :
  _get_key direct_request "api" = "api:ip:10.0.0.1" /\
  _get_key direct_request "api" <> _get_key direct_request "auth".
Proof.
  destruct (_get_key_derivation direct_request "api")
    as (_ & Hip & Hdist & _).
  split.
  - destruct (Hip eq_refl) as [_ Hc]. destruct (Hc eq_refl) as [Ha _].
    apply (Ha {| host := "10.0.0.1"; port := 51234 |}). reflexivity.
  - apply Hdist; [reflexivity | discriminate].
Defined.

Lemma check_nonpositive_limit_witness :
  fst (check direct_request 60000 0 "api" ticking_world)
  = (false, 0, float_add 0 (window_seconds 60000)).
Proof.
  apply (proj1 (check_nonpositive_limit direct_request 60000 0 "api"
                  ticking_world ltac:(lia))).
Defined.

Lemma check_after_window_witness :
  fst (check direct_request 60000 1 "api" stale_world)
  = (true, 0, float_add 100 (window_seconds 60000)) /\
  requests_of (snd (check direct_request 60000 1 "api" stale_world))
    "api:ip:10.0.0.1" = [100%Q].
Proof.
  apply (check_after_window direct_request 60000 1 "api" stale_world).
  - intros t [<- | []]. vm_compute. discriminate.
  - lia.
Defined.

Lemma burst_admits_exactly_limit_witness :
  map verdict (fst (checks (3 + 2) direct_request 60000 3 "api"
                      ticking_world))
  = [(true, 2); (true, 1); (true, 0); (false, 0); (false, 0)].
Proof.
  apply (burst_admits_exactly_limit 3 2 direct_request 60000 "api"
           ticking_world).
  - reflexivity.
  - exact monotone_ticking.
  - intros i Hi.
    change (clock ticking_world i) with (inject_Z (Z.of_nat i)).
    change (clock ticking_world (reads ticking_world)) with 0%Q.
    assert (H : (inject_Z (Z.of_nat i) < inject_Z 10)%Q)
      by (rewrite <- Zlt_Qlt; simpl in Hi; lia).
    unfold float_sub, window_seconds, float_div. cbn [fl exact_rounding].
    change (inject_Z 10) with 10%Q in H.
    change (inject_Z 60000) with 60000%Q. clear -H. revert H.
    generalize (inject_Z (Z.of_nat i)). intros q H.
    assert (E : (60000 / 1000 == 60)%Q) by reflexivity. rewrite E. lra.
Defined.

Lemma check_depends_on_own_record_witness :
  fst (check direct_request 60000 5 "api" ticking_world)
  = fst (check direct_request 60000 5 "api" busy_world).
Proof.
  apply (check_depends_on_own_record direct_request 60000 5 "api"
           ticking_world busy_world); reflexivity.
Defined.

Lemma user_and_ip_keys_differ_witness :
  _get_key user_request "api" <> _get_key spoofing_request "api" /\
  _get_key spoofing_request "api" = "api:ip:user:42".
Proof.
  split; [|reflexivity].
  apply (user_and_ip_keys_differ user_request spoofing_request "api");
    reflexivity.
Defined.

Lemma user_keys_injective_witness :
  _get_key user_request "api"
  = _get_key {| headers := [("x-user-id", "42")];
                client := Some {| host := "10.0.0.9"; port := 1 |} |} "api".
Proof.
  apply (user_keys_injective user_request
           {| headers := [("x-user-id", "42")];
              client := Some {| host := "10.0.0.9"; port := 1 |} |} "api");
    reflexivity.
Defined.

Lemma forwarded_address_shape_witness :
  exists ip,
    _get_key spoofing_request "api" = "api:ip:" ++ ip /\
    ~ In ","%char (list_ascii_of_string ip).
Proof.
  destruct (forwarded_address_shape spoofing_request "api"
              " user:42 , 10.0.0.7") as (ip & Hk & Hc & _).
  - reflexivity.
  - reflexivity.
  - discriminate.
  - exists ip. split; [exact Hk | exact Hc].
Defined.

Lemma require_role_downward_witness :
  require_role "viewer" (tenant_user None (Some "admin"))
  = Return (tenant_user None (Some "admin")) /\
  require_role "owner" (tenant_user None (Some "owner"))
  = Return (tenant_user None (Some "owner")).
Proof.
  split.
  - apply (proj1 (require_role_downward (tenant_user None (Some "admin"))
                    "admin" "viewer")).
    + reflexivity.
    + vm_compute. discriminate.
  - apply (proj2 (require_role_downward (tenant_user None (Some "owner"))
                    "owner" "owner")).
    reflexivity.
Defined.

Lemma require_role_unknown_min_role_witness :
  require_role "Admin" (tenant_user None (Some "viewer"))
  = Return (tenant_user None (Some "viewer")).
Proof.
  apply (require_role_unknown_min_role (tenant_user None (Some "viewer"))
           "Admin"); try discriminate.
  reflexivity.
Defined.

Lemma require_role_unknown_user_role_witness :
  succeeds (require_role "viewer" (tenant_user None (Some "Owner"))) = false.
Proof.
  rewrite (require_role_unknown_user_role
             (tenant_user None (Some "Owner")) "Owner" "viewer");
    try discriminate; try reflexivity.
  right. right. right. reflexivity.
Defined.

Lemma permission_checks_monotone_witness :
  succeeds (require_permission "read"
              (with_permissions ["write"; "read"] (tenant_user None None)))
  = true.
Proof.
  apply (permission_checks_monotone (tenant_user None None)
           ["read"] ["write"; "read"] [] "read").
  - intros x [<- | []]. right. left. reflexivity.
  - reflexivity.
Defined.

Lemma user_of_payload_other_claims_witness :
  user_of_payload (<["exp" := JNum 1700000000]> payload_verified_email)
  = user_of_payload payload_verified_email.
Proof.
  apply (user_of_payload_other_claims payload_verified_email "exp"
           (JNum 1700000000)); discriminate.
Defined.

Lemma namespace_not_an_object_witness :
  get_current_user "s3cret" (jwt_decodes_to payload_null_namespace)
    (bearer "t")
  = Raise (AttributeError "object has no attribute 'get'").
Proof.
  apply (namespace_not_an_object "s3cret"
           (jwt_decodes_to payload_null_namespace) (bearer "t")
           payload_null_namespace JNull).
  - reflexivity.
  - reflexivity.
  - discriminate.
Defined.

Lemma admission_follows_history_witness :
  fst (fst (fst (check direct_request 60000 5 "api"
                   (snd (checks 2 direct_request 60000 5 "api"
                           ticking_world)))))
  = true.
Proof.
  apply (admission_follows_history 2 direct_request 60000 5 "api"
           ticking_world).
  - reflexivity.
  - exact monotone_ticking.
  - exact (proj1 exact_rounding_laws).
  - vm_compute. reflexivity.
Defined.

Lemma blank_forwarded_address_witness :
  _get_key {| headers := [("x-forwarded-for", " , 203.0.113.9")];
              client := Some {| host := "10.0.0.1"; port := 51234 |} |}
    "auth"
  = "auth:ip:".
Proof.
  apply (blank_forwarded_address
           {| headers := [("x-forwarded-for", " , 203.0.113.9")];
              client := Some {| host := "10.0.0.1"; port := 51234 |} |}
           "auth" " , 203.0.113.9").
  - reflexivity.
  - reflexivity.
  - discriminate.
  - intros c [<- | []]. reflexivity.
Defined.

Lemma check_sliding_window_witness :
  map verdict (fst (checks 5 direct_request 60000 5 "api" ticking_world))
  = [(true, 4); (true, 3); (true, 2); (true, 1); (true, 0)] /\
  verdict
    (fst (check direct_request 60000 5 "api"
            (snd (checks 5 direct_request 60000 5 "api" ticking_world))))
  = (false, 0).
Proof.
  destruct (check_sliding_window direct_request 60000 5 "api" ticking_world)
    as (_ & _ & _ & H).
  destruct exact_rounding_laws as (L1 & L2 & L3).
  destruct H as (H5 & H6 & _).
  - reflexivity.
  - exact monotone_ticking.
  - exact L1.
  - exact L2.
  - exact L3.
  - vm_compute. discriminate.
  - vm_compute. discriminate.
  - vm_compute. reflexivity.
  - split; [exact H5 | exact H6].
Defined.

(** C3 as stated fails: a timestamp that lies exactly one window before
    the check is not older than [now] minus the window, so by the claim
    it stays and a limit of 1 denies the request; the code drops it and
    admits.  (Record [0], window 60000 ms, both clock readings 60: whole
    numbers, on which float arithmetic is exact.) *)
Lemma check_prunes_timestamp_at_cutoff :
  requests_of boundary_world (_get_key direct_request "api") = [0%Q] /\
  verdict (fst (check direct_request 60000 1 "api" boundary_world))
  = (true, 0) /\
  requests_of (snd (check direct_request 60000 1 "api" boundary_world))
    (_get_key direct_request "api") = [60%Q] /\
  verdict (claimed_check [0%Q] 60 60 1) = (false, 0).
Proof. repeat split. Qed.

Lemma retry_after_bounds_witness :
  int_of (float_sub (float_add (clock ticking_world 0) (window_seconds 60000))
            (clock ticking_world 2)) <= 60.
Proof.
  destruct (retry_after_bounds 60000 0 "api" direct_request ticking_world)
    as (_ & Hle & _).
  - reflexivity.
  - exact (proj1 exact_rounding_laws).
  - apply Hle; vm_compute; discriminate.
Defined.

Example sixth_check_denied :
  fst (check_rate_limit 60000 5 "api" direct_request
         (snd (checks 5 direct_request 60000 5 "api" ticking_world)))
  = Raise (HTTPException 429
             (JDict {[ "code" := JStr "AUTH_400";
                       "message" := JStr "Rate limit exceeded";
                       "retry_after" := JNum (inject_Z 58) ]})
             [ ("Retry-After", "58"); ("X-RateLimit-Limit", "5");
               ("X-RateLimit-Remaining", "0");
               ("X-RateLimit-Reset", "70") ]).
Proof. vm_compute. reflexivity. Qed.


Lemma get_current_user_errors_witness :
  get_current_user "s3cret" jwt_always_expired (bearer "t")
  = Raise (HTTPException HTTP_401_UNAUTHORIZED
             (JDict {[ "code" := JStr "AUTH_105";
                       "message" := JStr "Token expired" ]}) []) /\
  exists d,
    HTTPException HTTP_401_UNAUTHORIZED
      (JDict {[ "code" := JStr "AUTH_105";
                "message" := JStr "Token expired" ]}) []
    = HTTPException 401 d [].
Proof.
  split; [reflexivity|].
  destruct (get_current_user_errors "s3cret" jwt_always_expired (bearer "t")
              (HTTPException HTTP_401_UNAUTHORIZED
                 (JDict {[ "code" := JStr "AUTH_105";
                           "message" := JStr "Token expired" ]}) []))
    as [H _].
  destruct (H eq_refl)
    as [[Hs _] | [(_ & _ & Hd) | [(_ & c & m & _ & Hm) | (_ & Hh & _)]]].
  - discriminate.
  - exact Hd.
  - discriminate.
  - discriminate.
Defined.
